(** * CRUD-SYSTEM: a product form over a Firestore collection

    A shallow embedding of [crud-operations.js] (the store adapter and the
    validation / presentation helpers) and of the form and reconnect logic of
    [js/app.js], with the properties the specification states about them.

    - JavaScript numbers are IEEE 754 binary64 values: Rocq's primitive
      [float].
    - JavaScript strings are sequences of UTF-16 code units.  The embedding
      covers the strings whose code units all lie in U+0000..U+00FF (Basic
      Latin and Latin-1 Supplement, the repertoire of the Spanish user
      interface): a [string] whose characters are read as code units.  On
      that range [trim] and [toLowerCase] below are the ECMAScript ones, and
      the range is closed under both.
    - [async] functions are trees of calls to the Firestore SDK: a call node
      carries the request and continues with whatever the SDK answers, so a
      property of the tree holds for every behaviour of the store.
    - [console.log] and [console.error] only write diagnostics and are left
      out; a [catch] block that logs and rethrows is the identity. *)

From Stdlib Require Import Floats String Ascii List Bool Arith ZArith Lia.
From Stdlib Require Import DecimalString.
From stdpp Require Import gmap strings.
Import ListNotations.

#[local] Set Warnings "-inexact-float,-register-all".
#[local] Open Scope string_scope.
#[local] Open Scope list_scope.
#[local] Open Scope nat_scope.

(* ================================================================== *)
(** ** JavaScript strings (code units U+0000..U+00FF) *)

(** ECMAScript WhiteSpace and LineTerminator code points below U+0100:
    TAB, LF, VT, FF, CR, SP and NBSP. *)
Definition isWhiteSpace (c : ascii) : bool :=
  let n := nat_of_ascii c in
  ((9 <=? n) && (n <=? 13)) || (n =? 32) || (n =? 160).

Fixpoint trimStart (s : string) : string :=
  match s with
  | EmptyString => EmptyString
  | String c s' => if isWhiteSpace c then trimStart s' else s
  end.

Fixpoint trimEnd (s : string) : string :=
  match s with
  | EmptyString => EmptyString
  | String c s' =>
      match trimEnd s' with
      | EmptyString => if isWhiteSpace c then EmptyString else String c EmptyString
      | t => String c t
      end
  end.

(** [s.trim()] *)
Definition trim (s : string) : string := trimEnd (trimStart s).

(** Lower-case mapping of one code unit: A..Z, and the Latin-1 capitals
    U+00C0..U+00DE except the multiplication sign U+00D7. *)
Definition toLowerChar (c : ascii) : ascii :=
  let n := nat_of_ascii c in
  if ((65 <=? n) && (n <=? 90))
     || ((192 <=? n) && (n <=? 222) && negb (n =? 215))
  then ascii_of_nat (n + 32) else c.

(** [s.toLowerCase()] *)
Fixpoint toLowerCase (s : string) : string :=
  match s with
  | EmptyString => EmptyString
  | String c s' => String (toLowerChar c) (toLowerCase s')
  end.

(** [s.includes(searchString)] *)
Fixpoint includes (s searchString : string) : bool :=
  String.prefix searchString s
  || match s with
     | EmptyString => false
     | String _ s' => includes s' searchString
     end.

(** Letters with an acute accent used by the messages of the source. *)
Definition a_acute : string := String "225"%char "".
Definition e_acute : string := String "233"%char "".
Definition i_acute : string := String "237"%char "".
Definition o_acute : string := String "243"%char "".
Definition u_acute : string := String "250"%char "".

(* ================================================================== *)
(** ** JavaScript values *)

Inductive value : Type :=
| VUndefined
| VNull
| VBoolean (b : bool)
| VNumber (x : float)
| VString (s : string)
| VServerTimestamp                       (* the sentinel of [serverTimestamp()] *)
| VObject (props : list (string * value)).

(** [typeof v] *)
Definition typeof (v : value) : string :=
  match v with
  | VUndefined => "undefined"
  | VNull => "object"
  | VBoolean _ => "boolean"
  | VNumber _ => "number"
  | VString _ => "string"
  | VServerTimestamp => "object"
  | VObject _ => "object"
  end.

(** ToBoolean: [undefined], [null], [false], [0], [-0], [NaN] and [""] are
    falsy, every object is truthy. *)
Definition truthy (v : value) : bool :=
  match v with
  | VUndefined | VNull => false
  | VBoolean b => b
  | VNumber x => negb (PrimFloat.is_zero x || PrimFloat.is_nan x)
  | VString s => negb (String.eqb s "")
  | VServerTimestamp | VObject _ => true
  end.

(** Own properties of an object literal, in source order. *)
Fixpoint assoc (k : string) (props : list (string * value)) : option value :=
  match props with
  | [] => None
  | (k', v) :: rest => if String.eqb k k' then Some v else assoc k rest
  end.

(** [o.k] and the destructuring [const { k } = o]: a missing property reads
    as [undefined]. *)
Definition get (o : value) (k : string) : value :=
  match o with
  | VObject props => match assoc k props with Some v => v | None => VUndefined end
  | _ => VUndefined
  end.

(** [v.trim()] for a string [v].  The source calls it only behind the guard
    [typeof v !== 'string' || ...]; on any other value JavaScript raises a
    TypeError, which the guard makes unreachable. *)
Definition trimOf (v : value) : string :=
  match v with VString s => trim s | _ => "" end.

(** The string held by [v], read only behind [typeof v !== 'string' || ...]. *)
Definition stringOf (v : value) : string :=
  match v with VString s => s | _ => "" end.

(** The number held by [v], read only behind [typeof v !== 'number' || ...]. *)
Definition numberOf (v : value) : float :=
  match v with VNumber x => x | _ => PrimFloat.nan end.

(** [parseFloat(x)] for a Number [x] is [parseFloat(String(x))].
    Number::toString prints the shortest decimal that reads back as [x]
    (and "NaN", "Infinity", "-Infinity"), so the composition is the identity,
    except that [-0] prints as "0" and reads back as [+0]. *)
Definition parseFloatOfNumber (x : float) : float :=
  if PrimFloat.is_zero x then PrimFloat.zero else x.

(** [errors.push(m)] *)
Definition push {A} (l : list A) (x : A) : list A := l ++ [x].

(* ================================================================== *)
(** ** crud-operations.js: validation helper *)

(** The messages of crud-operations.js. *)
Definition msg_data_required : string :=
  "Los datos del producto son requeridos".
Definition msg_id_required : string :=
  "El ID del producto es requerido".
Definition msg_name_required : string :=
  "El nombre del producto es requerido".
Definition msg_name_short : string :=
  "El nombre debe tener al menos 2 caracteres".
Definition msg_name_long : string :=
  "El nombre no puede exceder 100 caracteres".
Definition msg_description_required : string :=
  "La descripci" +:+ o_acute +:+ "n del producto es requerida".
Definition msg_description_short : string :=
  "La descripci" +:+ o_acute +:+ "n debe tener al menos 10 caracteres".
Definition msg_description_long : string :=
  "La descripci" +:+ o_acute +:+ "n no puede exceder 500 caracteres".
Definition msg_price_number_min : string :=
  "El precio debe ser un n" +:+ u_acute +:+ "mero v" +:+ a_acute +:+ "lido mayor o igual a 0".
Definition msg_price_number : string :=
  "El precio debe ser un n" +:+ u_acute +:+ "mero v" +:+ a_acute +:+ "lido".
Definition msg_price_negative : string :=
  "El precio no puede ser negativo".
Definition msg_price_max : string :=
  "El precio no puede exceder $999,999.99".
Definition msg_category_required : string :=
  "La categor" +:+ i_acute +:+ "a del producto es requerida".


Record validation := { isValid : bool; errors : list string }.

Definition validateProductData (productData : value) : validation :=
  let errors := [] in
  if negb (truthy productData) || negb (String.eqb (typeof productData) "object") then
    let errors := push errors msg_data_required in
    {| isValid := false; errors := errors |}
  else
  let name := get productData "name" in
  let description := get productData "description" in
  let price := get productData "price" in
  let category := get productData "category" in
  (* Validar nombre *)
  let errors :=
    if negb (truthy name) || negb (String.eqb (typeof name) "string")
       || (String.length (trimOf name) =? 0)%nat
    then push errors msg_name_required
    else if (String.length (trimOf name) <? 2)%nat
    then push errors msg_name_short
    else if (100 <? String.length (trimOf name))%nat
    then push errors msg_name_long
    else errors in
  (* Validar descripción *)
  let errors :=
    if negb (truthy description) || negb (String.eqb (typeof description) "string")
       || (String.length (trimOf description) =? 0)%nat
    then push errors msg_description_required
    else if (String.length (trimOf description) <? 10)%nat
    then push errors msg_description_short
    else if (500 <? String.length (trimOf description))%nat
    then push errors msg_description_long
    else errors in
  (* Validar precio *)
  let errors :=
    if negb (String.eqb (typeof price) "number") || PrimFloat.is_nan (numberOf price)
    then push errors msg_price_number
    else if (numberOf price <? 0)%float
    then push errors msg_price_negative
    else if (999999.99 <? numberOf price)%float
    then push errors msg_price_max
    else errors in
  (* Validar categoría *)
  let errors :=
    if negb (truthy category) || negb (String.eqb (typeof category) "string")
       || (String.length (trimOf category) =? 0)%nat
    then push errors msg_category_required
    else errors in
  {| isValid := (List.length errors =? 0)%nat; errors := errors |}.

(* ================================================================== *)
(** ** Promises and calls to imported functions *)

(** A thrown value: an [Error] with its [message], and the [code] a
    Firestore error carries ([new Error(m)] has none). *)
Record error := mkError { message : string; code : option string }.

(** [new Error(m)] *)
Definition Error (m : string) : error := mkError m None.

(** A promise settles, and a call returns or throws. *)
Inductive settled (A : Type) : Type :=
| Fulfilled (a : A)
| Rejected (e : error).
Arguments Fulfilled {A} a.
Arguments Rejected {A} e.

(** A computation that calls functions of the interface [E]: it ends with a
    value, or performs a call and goes on with the answer. *)
Inductive prog (E : Type -> Type) (A : Type) : Type :=
| Ret (a : A)
| Vis (R : Type) (c : E R) (k : R -> prog E A).
Arguments Ret {E A} a.
Arguments Vis {E A R} c k.

Fixpoint bind {E A B} (p : prog E A) (f : A -> prog E B) : prog E B :=
  match p with
  | Ret a => f a
  | Vis c k => Vis c (fun r => bind (k r) f)
  end.

(** A single call. *)
Definition call {E R} (c : E R) : prog E R := Vis c Ret.

#[global] Instance prog_ret E : MRet (prog E) := fun A a => Ret a.
#[global] Instance prog_bind E : MBind (prog E) := fun A B f p => bind p f.

(** One call in a trace, without its answer. *)
Definition event (E : Type -> Type) : Type := { R : Type & E R }.
Definition ev {E R} (c : E R) : event E := existT R c.

(** [run answer p]: the calls and the result of [p] when every call is
    answered by [answer]. *)
Fixpoint run {E A} (answer : forall R, E R -> R) (p : prog E A)
  : list (event E) * A :=
  match p with
  | Ret a => ([], a)
  | Vis c k => let '(tr, a) := run answer (k (answer _ c)) in (ev c :: tr, a)
  end.

(** The body of an [async] function: [throw], [await] and [try]/[catch]. *)
Definition async (E : Type -> Type) (A : Type) : Type := prog E (settled A).

Definition throw {E A} (e : error) : async E A := Ret (Rejected e).

Definition await {E A B} (c : E (settled A)) (k : A -> async E B) : async E B :=
  Vis c (fun r => match r with Fulfilled a => k a | Rejected e => throw e end).

Fixpoint tryCatch {E A} (body : async E A) (handler : error -> async E A)
  : async E A :=
  match body with
  | Ret (Fulfilled a) => Ret (Fulfilled a)
  | Ret (Rejected e) => handler e
  | Vis c k => Vis c (fun r => tryCatch (k r) handler)
  end.

(* ================================================================== *)
(** ** crud-operations.js: the store adapter *)

(** [COLLECTION_NAME] of firebase-config.js *)
Definition COLLECTION_NAME : string := "productos".

(** A [DocumentReference]: [doc(db, path, id)], and what [addDoc] resolves to. *)
Record DocumentReference := { ref_path : string; ref_id : string }.

(** [collection(db, path)] *)
Definition collection (path : string) : string := path.
(** [doc(db, path, id)] *)
Definition doc (path id : string) : DocumentReference :=
  {| ref_path := path; ref_id := id |}.
(** [serverTimestamp()] *)
Definition serverTimestamp : value := VServerTimestamp.

(** The Firestore calls of the adapter, each with the type of its answer. *)
Inductive sdk : Type -> Type :=
| addDoc (coll : string) (data : list (string * value))
    : sdk (settled DocumentReference)
| updateDoc (ref : DocumentReference) (data : list (string * value))
    : sdk (settled unit)
| deleteDoc (ref : DocumentReference) : sdk (settled unit).

Definition createProduct (productData : value) : async sdk string :=
  tryCatch
    (if negb (truthy productData) || negb (String.eqb (typeof productData) "object")
     then throw (Error msg_data_required) else
     let name := get productData "name" in
     let description := get productData "description" in
     let price := get productData "price" in
     let category := get productData "category" in
     if negb (truthy name) || negb (String.eqb (typeof name) "string")
        || (String.length (trimOf name) =? 0)
     then throw (Error msg_name_required) else
     if negb (truthy description) || negb (String.eqb (typeof description) "string")
        || (String.length (trimOf description) =? 0)
     then throw (Error msg_description_required) else
     if negb (String.eqb (typeof price) "number") || (numberOf price <? 0)%float
     then throw (Error msg_price_number_min) else
     if negb (truthy category) || negb (String.eqb (typeof category) "string")
        || (String.length (trimOf category) =? 0)
     then throw (Error msg_category_required) else
     let productToSave :=
       [ ("name", VString (trimOf name));
         ("description", VString (trimOf description));
         ("price", VNumber (parseFloatOfNumber (numberOf price)));
         ("category", VString (trimOf category));
         ("createdAt", serverTimestamp);
         ("updatedAt", serverTimestamp) ] in
     await (addDoc (collection COLLECTION_NAME) productToSave) (fun docRef =>
     Ret (Fulfilled (ref_id docRef))))
    (fun error => throw error).

Definition updateProduct (productId productData : value) : async sdk unit :=
  tryCatch
    (if negb (truthy productId) || negb (String.eqb (typeof productId) "string")
     then throw (Error msg_id_required) else
     if negb (truthy productData) || negb (String.eqb (typeof productData) "object")
     then throw (Error msg_data_required) else
     let name := get productData "name" in
     let description := get productData "description" in
     let price := get productData "price" in
     let category := get productData "category" in
     if negb (truthy name) || negb (String.eqb (typeof name) "string")
        || (String.length (trimOf name) =? 0)
     then throw (Error msg_name_required) else
     if negb (truthy description) || negb (String.eqb (typeof description) "string")
        || (String.length (trimOf description) =? 0)
     then throw (Error msg_description_required) else
     if negb (String.eqb (typeof price) "number") || (numberOf price <? 0)%float
     then throw (Error msg_price_number_min) else
     if negb (truthy category) || negb (String.eqb (typeof category) "string")
        || (String.length (trimOf category) =? 0)
     then throw (Error msg_category_required) else
     let updateData :=
       [ ("name", VString (trimOf name));
         ("description", VString (trimOf description));
         ("price", VNumber (parseFloatOfNumber (numberOf price)));
         ("category", VString (trimOf category));
         ("updatedAt", serverTimestamp) ] in
     let productRef := doc COLLECTION_NAME (stringOf productId) in
     await (updateDoc productRef updateData) (fun _ =>
     Ret (Fulfilled tt)))
    (fun error => throw error).

Definition deleteProduct (productId : value) : async sdk unit :=
  tryCatch
    (if negb (truthy productId) || negb (String.eqb (typeof productId) "string")
     then throw (Error msg_id_required) else
     let productRef := doc COLLECTION_NAME (stringOf productId) in
     await (deleteDoc productRef) (fun _ =>
     Ret (Fulfilled tt)))
    (fun error => throw error).

(** What [updateDoc(ref, data)] does to the stored document, by Firestore's
    contract (the SDK is external to the repository): the fields named in
    [data] are overwritten, every other field is kept. *)
Definition updateFields (data : list (string * value))
    (document : gmap string value) : gmap string value :=
  fold_left (fun d kv => <[kv.1 := kv.2]> d) data document.

(* ================================================================== *)
(** ** crud-operations.js: search and statistics *)

(** A product as the subscription delivers it: [{ id: doc.id, ...doc.data() }]. *)
Record product := {
  product_id : string;
  product_name : string;
  product_description : string;
  product_price : float;
  product_category : string;
  product_createdAt : value;
  product_updatedAt : value
}.

Definition searchProducts (searchText : value) (products : list product)
  : list product :=
  if negb (truthy searchText) || negb (String.eqb (typeof searchText) "string")
  then products else
  let searchLower := trim (toLowerCase (stringOf searchText)) in
  List.filter
    (fun product =>
       includes (toLowerCase (product_name product)) searchLower
       || includes (toLowerCase (product_description product)) searchLower
       || includes (toLowerCase (product_category product)) searchLower)
    products.

(** The argument of [getProductStats]: an array of products, or any other
    value ([Array.isArray] tells them apart). *)
Inductive productsArg :=
| ArrayOf (products : list product)
| NotArray (v : value).

Definition Array_isArray (a : productsArg) : bool :=
  match a with ArrayOf _ => true | NotArray _ => false end.

(** The value of a counter of [stats.categories]: a Number holding a count
    (counts stay far below 2^53, where Numbers are exact), or NaN. *)
Inductive counter :=
| Count (n : nat)
| CountNaN.

(** ToBoolean of a counter: [0] and [NaN] are falsy. *)
Definition counterTruthy (x : counter) : bool :=
  match x with Count n => negb (n =? 0) | CountNaN => false end.

(** [x + 1] *)
Definition counterIncrement (x : counter) : counter :=
  match x with Count n => Count (n + 1) | CountNaN => CountNaN end.

Record stats := {
  total : nat;
  averagePrice : float;
  categories : gmap string counter;
  totalValue : float
}.

(** [products.length] as a Number (exact: lengths are below 2^32). *)
Definition numberOfNat (n : nat) : float :=
  PrimFloat.of_uint63 (Uint63.of_Z (Z.of_nat n)).

(** [stats.categories] starts as the object literal [{}], so a key it does
    not own is looked up on [Object.prototype], whose properties are these
    (functions, and the accessor [__proto__]): all truthy, and NaN as
    Numbers. *)
Definition objectPrototypeKeys : list string :=
  [ "constructor"; "hasOwnProperty"; "isPrototypeOf"; "propertyIsEnumerable";
    "toLocaleString"; "toString"; "valueOf"; "__proto__";
    "__defineGetter__"; "__defineSetter__"; "__lookupGetter__";
    "__lookupSetter__" ].

Definition inheritedKey (k : string) : bool :=
  existsb (String.eqb k) objectPrototypeKeys.

(** [stats.categories[k] = x]: an own property is created or overwritten;
    for [__proto__] the inherited setter runs instead and ignores a Number. *)
Definition setCategory (categories : gmap string counter) (k : string)
    (x : counter) : gmap string counter :=
  if String.eqb k "__proto__" then categories else <[k := x]> categories.

(** The counting [if] of the loop for the category [k]:
    [if (stats.categories[k]) stats.categories[k]++ else stats.categories[k] = 1]. *)
Definition countCategory (categories : gmap string counter) (k : string)
  : gmap string counter :=
  match categories !! k with
  | Some x =>
      if counterTruthy x
      then setCategory categories k (counterIncrement x)
      else setCategory categories k (Count 1)
  | None =>
      if inheritedKey k
      then setCategory categories k (counterIncrement CountNaN)
      else setCategory categories k (Count 1)
  end.

(** The state of the [forEach] loop: [totalPrice], [totalValue] and
    [stats.categories]. *)
Definition statsLoop (products : list product)
  : float * float * gmap string counter :=
  fold_left
    (fun '(totalPrice, totalValue, categories) product =>
       ((totalPrice + product_price product)%float,
        (totalValue + product_price product)%float,
        countCategory categories (product_category product)))
    products (0%float, 0%float, ∅).

Definition getProductStats (products : productsArg) : stats :=
  if negb (Array_isArray products) then
    {| total := 0; averagePrice := 0; categories := ∅; totalValue := 0 |}
  else
  let products := match products with ArrayOf l => l | NotArray _ => [] end in
  let stats :=
    {| total := List.length products; averagePrice := 0;
       categories := ∅; totalValue := 0 |} in
  if List.length products =? 0 then stats else
  let '(totalPrice, totalValue, categories) := statsLoop products in
  {| total := total stats;
     averagePrice := (totalPrice / numberOfNat (List.length products))%float;
     categories := categories;
     totalValue := totalValue |}.

(* ================================================================== *)
(** ** js/app.js: state, form submission and reconnection *)

(** The module-level variables.  [unsubscribeProducts] holds the
    cancellation function of a subscription, named by a number. *)
Record app_state := {
  isEditing : bool;
  currentEditId : value;
  allProducts : list product;
  unsubscribeProducts : option nat;
  reconnectAttempts : nat
}.

Definition MAX_RECONNECT_ATTEMPTS : nat := 3.

Definition initialState : app_state :=
  {| isEditing := false; currentEditId := VNull; allProducts := [];
     unsubscribeProducts := None; reconnectAttempts := 0 |}.

Definition set_editing (b : bool) (i : value) (st : app_state) : app_state :=
  {| isEditing := b; currentEditId := i; allProducts := allProducts st;
     unsubscribeProducts := unsubscribeProducts st;
     reconnectAttempts := reconnectAttempts st |}.
Definition set_allProducts (l : list product) (st : app_state) : app_state :=
  {| isEditing := isEditing st; currentEditId := currentEditId st;
     allProducts := l; unsubscribeProducts := unsubscribeProducts st;
     reconnectAttempts := reconnectAttempts st |}.
Definition set_unsubscribeProducts (h : option nat) (st : app_state) : app_state :=
  {| isEditing := isEditing st; currentEditId := currentEditId st;
     allProducts := allProducts st; unsubscribeProducts := h;
     reconnectAttempts := reconnectAttempts st |}.
Definition set_reconnectAttempts (n : nat) (st : app_state) : app_state :=
  {| isEditing := isEditing st; currentEditId := currentEditId st;
     allProducts := allProducts st;
     unsubscribeProducts := unsubscribeProducts st; reconnectAttempts := n |}.

(** The [value] of the four inputs of the form. *)
Record form := {
  nameInput : string;
  descriptionInput : string;
  priceInput : string;
  categorySelect : string
}.

(** What the controller calls: the functions imported from
    crud-operations.js, timers, and the helpers of app.js whose bodies only
    write to the DOM (one call each).  [GetAllProducts] is always given the
    listener [onProducts] below, [SetTimeout] the callback [reconnectTimer]. *)
Inductive ui : Type -> Type :=
| CreateProduct (productData : value) : ui (settled string)
| UpdateProduct (productId productData : value) : ui (settled unit)
| GetAllProducts : ui (settled nat)
| Unsubscribe (h : nat) : ui unit
| SetTimeout (delay : nat) : ui unit
| PreventDefault : ui unit
| ShowToast (message type : string) : ui unit
| ShowFieldError (fieldName errorMessage : string) : ui unit
| SetSubmitButtonLoading (isLoading editing : bool) : ui unit
| FormReset : ui unit
| ClearAllFieldErrors : ui unit
| EditModeChrome (editing : bool) : ui unit
| UpdateLoadingState (isLoading : bool) : ui unit
| ShowEmptyState : ui unit
| ShowPermissionError : ui unit
| RenderProducts (products : list product) : ui unit.

Definition showToast (message type : string) : prog ui unit :=
  call (ShowToast message type).
Definition showFieldError (fieldName errorMessage : string) : prog ui unit :=
  call (ShowFieldError fieldName errorMessage).

(** [l.forEach(f)] *)
Fixpoint forEach {E A} (l : list A) (f : A -> prog E unit) : prog E unit :=
  match l with
  | [] => Ret tt
  | x :: l' => f x;; forEach l' f
  end.

Definition exitEditMode (st : app_state) : prog ui app_state :=
  let st := set_editing false VNull st in
  call (EditModeChrome false);;
  mret st.

Definition clearForm (st : app_state) : prog ui app_state :=
  call FormReset;;
  call ClearAllFieldErrors;;
  exitEditMode st.

Definition showValidationErrors (errors : list string) : prog ui unit :=
  forEach errors (fun error =>
    if includes (toLowerCase error) "nombre" then
      showFieldError "name" error
    else if includes (toLowerCase error) ("descripci" +:+ o_acute +:+ "n") then
      showFieldError "description" error
    else if includes (toLowerCase error) "precio" then
      showFieldError "price" error
    else if includes (toLowerCase error) ("categor" +:+ i_acute +:+ "a") then
      showFieldError "category" error
    else Ret tt);;
  showToast "Por favor corrige los errores en el formulario" "error".

Section Controller.

(** The global [parseFloat], applied to the text of the price input. *)
Variable parseFloat : string -> float.

Definition getFormData (f : form) : value :=
  VObject [ ("name", VString (nameInput f));
            ("description", VString (descriptionInput f));
            ("price", VNumber (parseFloat (priceInput f)));
            ("category", VString (categorySelect f)) ].

(** [try { ... } catch (error) { showToast } finally { setSubmitButtonLoading(false) }]:
    the [try] block ends by its [return], by running to its end, or in the
    [catch] block when an awaited promise rejects; [finally] follows each. *)
Definition handleFormSubmit (f : form) (st : app_state) : prog ui app_state :=
  call PreventDefault;;
  st ← (let formData := getFormData f in
        let validation := validateProductData formData in
        if negb (isValid validation) then
          showValidationErrors (errors validation);;
          mret st
        else
          call (SetSubmitButtonLoading true (isEditing st));;
          if isEditing st then
            r ← call (UpdateProduct (currentEditId st) formData);
            match r with
            | Fulfilled _ =>
                showToast "Producto actualizado exitosamente" "success";;
                exitEditMode st
            | Rejected error =>
                showToast ("Error: " +:+ message error) "error";;
                mret st
            end
          else
            r ← call (CreateProduct formData);
            match r with
            | Fulfilled _ =>
                showToast "Producto creado exitosamente" "success";;
                clearForm st
            | Rejected error =>
                showToast ("Error: " +:+ message error) "error";;
                mret st
            end);
  call (SetSubmitButtonLoading false (isEditing st));;
  mret st.

End Controller.

(** [`${n}`] for a count. *)
Definition decimal (n : nat) : string := NilZero.string_of_uint (Nat.to_uint n).

Definition attemptReconnect (st : app_state) : prog ui app_state :=
  if reconnectAttempts st <? MAX_RECONNECT_ATTEMPTS then
    let st := set_reconnectAttempts (reconnectAttempts st + 1) st in
    showToast ("Reintentando conexi" +:+ o_acute +:+ "n... ("
               +:+ decimal (reconnectAttempts st) +:+ "/"
               +:+ decimal MAX_RECONNECT_ATTEMPTS +:+ ")") "warning";;
    call (SetTimeout 2000);;
    mret st
  else
    showToast ("No se pudo conectar despu" +:+ e_acute +:+ "s de varios intentos")
              "error";;
    mret st.

(** The callback given to [getAllProducts]: [(products, error) => ...]. *)
Definition onProducts (products : list product) (error : option error)
    (st : app_state) : prog ui app_state :=
  match error with
  | Some error =>
      st ← (if decide (code error = Some "permission-denied") then
              showToast "Error de permisos: Configura las reglas de Firestore" "error";;
              call ShowPermissionError;;
              mret st
            else if decide (code error = Some "unavailable") then
              showToast ("Firestore no disponible: Verifica tu conexi" +:+ o_acute +:+ "n")
                        "error";;
              attemptReconnect st
            else
              showToast ("Error al cargar productos: " +:+ message error) "error";;
              mret st);
      call (UpdateLoadingState false);;
      call ShowEmptyState;;
      mret st
  | None =>
      let st := set_allProducts products st in
      call (RenderProducts products);;
      call (UpdateLoadingState false);;
      mret st
  end.

Definition startRealTimeListener (st : app_state) : prog ui app_state :=
  r ← call GetAllProducts;
  match r with
  | Fulfilled unsubscribe => mret (set_unsubscribeProducts (Some unsubscribe) st)
  | Rejected _ =>
      showToast "Error al conectar con la base de datos" "error";;
      call (UpdateLoadingState false);;
      call ShowEmptyState;;
      mret st
  end.

(** The callback given to [setTimeout] by [attemptReconnect]. *)
Definition reconnectTimer (st : app_state) : prog ui app_state :=
  match unsubscribeProducts st with
  | Some unsubscribe => call (Unsubscribe unsubscribe)
  | None => Ret tt
  end;;
  startRealTimeListener st.

(** The inputs of a session after the page has loaded and the first
    subscription was opened: a snapshot or an error from the subscription,
    and the expiry of a reconnect timer.  (The handlers of the form and of
    the table neither read nor write [reconnectAttempts] and set no reconnect
    timer; the timer that dismisses a toast belongs to [ShowToast].) *)
Inductive input :=
| Delivered (products : list product)
| Failed (error : error)
| TimerFired.

Definition handle (i : input) (st : app_state) : prog ui app_state :=
  match i with
  | Delivered products => onProducts products None st
  | Failed error => onProducts [] (Some error) st
  | TimerFired => reconnectTimer st
  end.

(** The delays of the reconnect timers set in a trace, and the number of
    timers that expired among the inputs. *)
Definition timerDelay (e : event ui) : option nat :=
  match projT2 e with SetTimeout delay => Some delay | _ => None end.
Definition timerDelays (tr : list (event ui)) : list nat :=
  omap timerDelay tr.
Definition isTimerFired (i : input) : bool :=
  match i with TimerFired => true | _ => false end.
Definition fired (ins : list input) : nat :=
  List.length (List.filter isTimerFired ins).

(** The calls to the store adapter in a trace. *)
Definition isAdapterCall (e : event ui) : bool :=
  match projT2 e with
  | CreateProduct _ | UpdateProduct _ _ => true
  | _ => false
  end.

(* ================================================================== *)
(** ** crud-operations.js: category filter and reads *)

Definition filterProductsByCategory (category : value) (products : list product)
  : list product :=
  if negb (truthy category) || negb (String.eqb (typeof category) "string")
  then products else
  List.filter
    (fun product =>
       String.eqb (toLowerCase (product_category product))
                  (toLowerCase (stringOf category)))
    products.

(** A document of a query snapshot: [doc.id] and the fields [doc.data()],
    in their order. *)
Record QueryDocumentSnapshot := {
  doc_id : string;
  doc_data : list (string * value)
}.

(** An array index: the canonical decimal text of an integer below
    [2^32 - 1].  The own keys of an object list these first, in ascending
    order, and then the other keys in the order of their creation. *)
Definition arrayIndex (k : string) : option N :=
  match NilZero.uint_of_string k with
  | Some d =>
      let n := N.of_uint d in
      if String.eqb (NilZero.string_of_uint (N.to_uint n)) k && (n <? 4294967295)%N
      then Some n else None
  | None => None
  end.

Definition hasProperty (k : string) (props : list (string * value)) : bool :=
  existsb (fun kv => String.eqb k kv.1) props.

(** An existing property keeps its place and takes the new value. *)
Fixpoint replaceProperty (k : string) (v : value) (props : list (string * value))
  : list (string * value) :=
  match props with
  | [] => []
  | (k', v') :: rest =>
      if String.eqb k k' then (k', v) :: rest
      else (k', v') :: replaceProperty k v rest
  end.

(** A new array index [n] goes after the smaller indices and before
    everything else. *)
Fixpoint insertIndex (n : N) (k : string) (v : value) (props : list (string * value))
  : list (string * value) :=
  match props with
  | [] => [(k, v)]
  | (k', v') :: rest =>
      match arrayIndex k' with
      | Some n' =>
          if (n' <? n)%N then (k', v') :: insertIndex n k v rest
          else (k, v) :: props
      | None => (k, v) :: props
      end
  end.

(** Writing the property [k] of an object under construction, the
    properties being listed in the order of the own keys of the object: an
    existing property keeps its place and takes the new value, a new array
    index goes to its place among the indices, and any other new key is
    added at the end. *)
Definition setProperty (k : string) (v : value) (props : list (string * value))
  : list (string * value) :=
  if hasProperty k props then replaceProperty k v props
  else match arrayIndex k with
       | Some n => insertIndex n k v props
       | None => props ++ [(k, v)]
       end.

(** [{ ...props, ...data }]: the properties of [data] are written in order. *)
Definition spread (props data : list (string * value)) : list (string * value) :=
  fold_left (fun o kv => setProperty kv.1 kv.2 o) data props.

(** The body of both [snapshot.forEach] loops:
    [products.push({ id: doc.id, ...doc.data() })]. *)
Definition snapshotProducts (snapshot : list QueryDocumentSnapshot) : list value :=
  fold_left
    (fun products d =>
       push products (VObject (spread [("id", VString (doc_id d))] (doc_data d))))
    snapshot [].

(** [query(collection(db, path), orderBy(field, direction))] *)
Record Query := {
  query_path : string;
  query_orderBy : string * string
}.

(** The read call of the adapter. *)
Inductive reads : Type -> Type :=
| getDocs (q : Query) : reads (settled (list QueryDocumentSnapshot)).

Definition getProductsOnce : async reads (list value) :=
  tryCatch
    (let q := {| query_path := collection COLLECTION_NAME;
                 query_orderBy := ("createdAt", "desc") |} in
     await (getDocs q) (fun snapshot =>
     let products := snapshotProducts snapshot in
     Ret (Fulfilled products)))
    (fun error => throw error).

(* ================================================================== *)
(** ** js/app.js: the table, the fields and escaping *)

(** [escapeHtml]: the text is stored in a text node ([div.textContent = text])
    and read back as markup ([div.innerHTML]); the HTML serialisation of a
    text node writes "&" as "&amp;", U+00A0 as "&nbsp;", "<" as "&lt;" and
    ">" as "&gt;", and every other character as itself. *)
Definition escapeChar (c : ascii) : string :=
  if Ascii.eqb c "&" then "&amp;"
  else if Ascii.eqb c "160" then "&nbsp;"
  else if Ascii.eqb c "<" then "&lt;"
  else if Ascii.eqb c ">" then "&gt;"
  else String c "".

Fixpoint escapeHtml (text : string) : string :=
  match text with
  | EmptyString => EmptyString
  | String c rest => escapeChar c +:+ escapeHtml rest
  end.

(** The calls of the handlers of the table and of the fields: those of the
    controller, the imported [deleteProduct], the dialog [confirm], and the
    DOM writes of [clearFieldError], of [loadForm] (the four assignments to
    the inputs) and of [enterEditMode] (scrolling to the form). *)
Inductive table : Type -> Type :=
| Controller (R : Type) (c : ui R) : table R
| DeleteProduct (productId : value) : table (settled unit)
| Confirm (message : string) : table bool
| ClearFieldError (fieldName : string) : table unit
| LoadFormValues (name description : string) (price : float) (category : string)
    : table unit
| ScrollFormIntoView : table unit.
Arguments Controller {R} c.

(** A computation of the controller, run among the calls of the table. *)
Fixpoint lift {A} (p : prog ui A) : prog table A :=
  match p with
  | Ret a => Ret a
  | Vis c k => Vis (Controller c) (fun r => lift (k r))
  end.

(** The double quote. *)
Definition dquote : string := String "034"%char "".

Definition enterEditMode (productId : string) (st : app_state)
  : prog table app_state :=
  let st := set_editing true (VString productId) st in
  call (Controller (EditModeChrome true));;
  call ScrollFormIntoView;;
  mret st.

Definition loadForm (product : product) (st : app_state) : prog table app_state :=
  call (LoadFormValues (product_name product) (product_description product)
          (product_price product) (product_category product));;
  enterEditMode (product_id product) st.

Definition handleEditProduct (productId : string) (st : app_state)
  : prog table app_state :=
  match List.find (fun p => String.eqb (product_id p) productId) (allProducts st) with
  | None =>
      lift (showToast "Producto no encontrado" "error");;
      mret st
  | Some product =>
      st ← loadForm product st;
      lift (showToast ("Modo edici" +:+ o_acute +:+ "n activado") "info");;
      mret st
  end.

Definition handleDeleteProduct (productId : string) (st : app_state)
  : prog table unit :=
  match List.find (fun p => String.eqb (product_id p) productId) (allProducts st) with
  | None => lift (showToast "Producto no encontrado" "error")
  | Some product =>
      confirmed ← call (Confirm (String "191"%char "Est" +:+ a_acute
                                 +:+ "s seguro de que quieres eliminar el producto "
                                 +:+ dquote +:+ product_name product +:+ dquote
                                 +:+ "?"));
      if negb confirmed then Ret tt else
      r ← call (DeleteProduct (VString productId));
      match r with
      | Fulfilled _ => lift (showToast "Producto eliminado exitosamente" "success")
      | Rejected error =>
          lift (showToast ("Error al eliminar: " +:+ message error) "error")
      end
  end.

Definition handleCancelEdit (st : app_state) : prog ui app_state :=
  st ← clearForm st;
  showToast ("Edici" +:+ o_acute +:+ "n cancelada") "info";;
  mret st.

Definition clearFieldError (fieldName : string) : prog table unit :=
  call (ClearFieldError fieldName).

Section Fields.

Variable parseFloat : string -> float.

Definition validateField (fieldName : string) (f : form) : prog table unit :=
  let formData := getFormData parseFloat f in
  let validation := validateProductData formData in
  let fieldErrors :=
    List.filter
      (fun error => includes (toLowerCase error) (toLowerCase fieldName))
      (errors validation) in
  match fieldErrors with
  | first :: _ => lift (showFieldError fieldName first)
  | [] => clearFieldError fieldName
  end.

End Fields.

(* ================================================================== *)
(** ** Reading the properties *)

(** The field of the form on which [showValidationErrors] shows a message. *)
Definition fieldOfError (error : string) : option string :=
  if includes (toLowerCase error) "nombre" then Some "name"
  else if includes (toLowerCase error) ("descripci" +:+ o_acute +:+ "n") then
    Some "description"
  else if includes (toLowerCase error) "precio" then Some "price"
  else if includes (toLowerCase error) ("categor" +:+ i_acute +:+ "a") then
    Some "category"
  else None.

(** A validation result reports the field: it is invalid, and one of its
    messages is shown on that field. *)
Definition flags (field : string) (v : validation) : Prop :=
  isValid v = false /\ errors v <> []
  /\ exists m, In m (errors v) /\ fieldOfError m = Some field.

(** [exec p tr a]: [p] can perform the calls [tr], in this order, and end
    with [a], whatever answers the calls. *)
Fixpoint exec {E A} (p : prog E A) (tr : list (event E)) (a : A) : Prop :=
  match p with
  | Ret a' => tr = [] /\ a = a'
  | Vis c k => exists r tr', tr = ev c :: tr' /\ exec (k r) tr' a
  end.

(** [handles st n ins tr st' n']: from the state [st] with [n] reconnect
    timers pending, the inputs [ins] are handled one by one, with the calls
    [tr], and leave the state [st'] with [n'] timers pending.  A timer
    expires only if one is pending, and every [SetTimeout] adds one. *)
Inductive handles
  : app_state -> nat -> list input -> list (event ui) -> app_state -> nat -> Prop :=
| handles_nil st n : handles st n [] [] st n
| handles_cons st n i ins tr st1 tr' st' n' :
    (i = TimerFired -> 0 < n) ->
    exec (handle i st) tr st1 ->
    handles st1 (n - (if isTimerFired i then 1 else 0)
                 + List.length (timerDelays tr)) ins tr' st' n' ->
    handles st n (i :: ins) (tr ++ tr') st' n'.

(** A session: the page opens the first subscription from the initial
    state, then handles inputs. *)
Definition session (ins : list input) (tr : list (event ui))
    (st : app_state) (n : nat) : Prop :=
  exists tr0 st0 tr1,
    exec (startRealTimeListener initialState) tr0 st0
    /\ handles st0 0 ins tr1 st n
    /\ tr = tr0 ++ tr1.

(** The same, computed: the calls and the final state when every call is
    answered by [answer]; [None] when a timer expires with none pending. *)
Fixpoint runInputs (answer : forall R, ui R -> R) (st : app_state) (n : nat)
    (ins : list input) : option (list (event ui) * app_state * nat) :=
  match ins with
  | [] => Some ([], st, n)
  | i :: ins' =>
      if isTimerFired i && (n =? 0) then None else
      let '(tr, st1) := run answer (handle i st) in
      match runInputs answer st1
              (n - (if isTimerFired i then 1 else 0)
               + List.length (timerDelays tr)) ins' with
      | Some (tr', st', n') => Some (tr ++ tr', st', n')
      | None => None
      end
  end.

Definition runSession (answer : forall R, ui R -> R) (ins : list input)
  : option (list (event ui) * app_state * nat) :=
  let '(tr0, st0) := run answer (startRealTimeListener initialState) in
  match runInputs answer st0 0 ins with
  | Some (tr1, st, n) => Some (tr0 ++ tr1, st, n)
  | None => None
  end.

(** One call in a trace together with the answer it got. *)
Definition answered (E : Type -> Type) : Type := { R : Type & (E R * R)%type }.
Definition ans {E R} (c : E R) (r : R) : answered E :=
  @existT Type (fun R => (E R * R)%type) R (c, r).
Definition callOf {E} (e : answered E) : event E := ev (fst (projT2 e)).
Definition calls {E} (atr : list (answered E)) : list (event E) := map callOf atr.

(** [run] and [exec] with the answers recorded. *)
Fixpoint runWith {E A} (answer : forall R, E R -> R) (p : prog E A)
  : list (answered E) * A :=
  match p with
  | Ret a => ([], a)
  | Vis c k =>
      let '(atr, a) := runWith answer (k (answer _ c)) in
      (ans c (answer _ c) :: atr, a)
  end.

Fixpoint execWith {E A} (p : prog E A) (atr : list (answered E)) (a : A) : Prop :=
  match p with
  | Ret a' => atr = [] /\ a = a'
  | Vis c k => exists r atr', atr = ans c r :: atr' /\ execWith (k r) atr' a
  end.

(** [handles] and [session] with the answers recorded: the same inputs, the
    same rule for the timers, and each call of the trace with its answer. *)
Inductive handlesWith
  : app_state -> nat -> list input -> list (answered ui) -> app_state -> nat
    -> Prop :=
| handlesWith_nil st n : handlesWith st n [] [] st n
| handlesWith_cons st n i ins atr st1 atr' st' n' :
    (i = TimerFired -> 0 < n) ->
    execWith (handle i st) atr st1 ->
    handlesWith st1 (n - (if isTimerFired i then 1 else 0)
                     + List.length (timerDelays (calls atr))) ins atr' st' n' ->
    handlesWith st n (i :: ins) (atr ++ atr') st' n'.

Definition sessionWith (ins : list input) (atr : list (answered ui))
    (st : app_state) (n : nat) : Prop :=
  exists atr0 st0 atr1,
    execWith (startRealTimeListener initialState) atr0 st0
    /\ handlesWith st0 0 ins atr1 st n
    /\ atr = atr0 ++ atr1.

Fixpoint runInputsWith (answer : forall R, ui R -> R) (st : app_state) (n : nat)
    (ins : list input) : option (list (answered ui) * app_state * nat) :=
  match ins with
  | [] => Some ([], st, n)
  | i :: ins' =>
      if isTimerFired i && (n =? 0) then None else
      let '(atr, st1) := runWith answer (handle i st) in
      match runInputsWith answer st1
              (n - (if isTimerFired i then 1 else 0)
               + List.length (timerDelays (calls atr))) ins' with
      | Some (atr', st', n') => Some (atr ++ atr', st', n')
      | None => None
      end
  end.

Definition runSessionWith (answer : forall R, ui R -> R) (ins : list input)
  : option (list (answered ui) * app_state * nat) :=
  let '(atr0, st0) := runWith answer (startRealTimeListener initialState) in
  match runInputsWith answer st0 0 ins with
  | Some (atr1, st, n) => Some (atr0 ++ atr1, st, n)
  | None => None
  end.

(** What a call of the controller does to the subscription: [getAllProducts]
    opens one and returns the function that cancels it (or throws), and
    calling that function cancels it. *)
Inductive subscriptionCall :=
| Opens (r : settled nat)
| Cancels (h : nat)
| NoSubscriptionCall.

Definition subscriptionCallOf (e : answered ui) : subscriptionCall :=
  match e with
  | existT R (c, r) =>
      match c in ui R0 return R0 -> subscriptionCall with
      | GetAllProducts => fun r => Opens r
      | Unsubscribe h => fun _ => Cancels h
      | _ => fun _ => NoSubscriptionCall
      end r
  end.

(** The handle the last successful [getAllProducts] of a trace returned,
    [held] when there is none. *)
Definition heldAfter (held : option nat) (atr : list (answered ui)) : option nat :=
  fold_left
    (fun held e =>
       match subscriptionCallOf e with
       | Opens (Fulfilled h) => Some h
       | _ => held
       end)
    atr held.
Definition lastOpened (atr : list (answered ui)) : option nat := heldAfter None atr.

(** Along the trace, with [held] the handle last returned and [cancelled]
    telling that it has just been cancelled: the only handle ever cancelled
    is the one last returned, the very next call after a cancellation is
    [getAllProducts], and [getAllProducts] is called only when no handle was
    returned yet or the one last returned has just been cancelled.  (When
    [getAllProducts] throws, the variable keeps the handle it had, and the
    next timer cancels that one again.) *)
Fixpoint cancelsBeforeReopening (held : option nat) (cancelled : bool)
    (atr : list (answered ui)) : bool :=
  match atr with
  | [] => negb cancelled
  | e :: rest =>
      match subscriptionCallOf e with
      | Cancels h =>
          negb cancelled
          && match held with Some h' => h =? h' | None => false end
          && cancelsBeforeReopening held true rest
      | Opens r =>
          (cancelled || match held with Some _ => false | None => true end)
          && cancelsBeforeReopening
               (match r with Fulfilled h => Some h | Rejected _ => held end)
               false rest
      | NoSubscriptionCall =>
          negb cancelled && cancelsBeforeReopening held false rest
      end
  end.

(** The error of a subscription that Firestore cannot reach. *)
Definition unavailable : error :=
  mkError "Failed to get document because the client is offline."
          (Some "unavailable").

(** The two notices of [attemptReconnect]. *)
Definition retryNotice (n : nat) : event ui :=
  ev (ShowToast ("Reintentando conexi" +:+ o_acute +:+ "n... ("
                 +:+ decimal n +:+ "/"
                 +:+ decimal MAX_RECONNECT_ATTEMPTS +:+ ")") "warning").
Definition finalNotice : event ui :=
  ev (ShowToast ("No se pudo conectar despu" +:+ e_acute +:+ "s de varios intentos")
                "error").

(** The messages shown on fields of the form in a trace, with their field. *)
Definition shownFieldError (e : event ui) : option (string * string) :=
  match projT2 e with
  | ShowFieldError fieldName errorMessage => Some (fieldName, errorMessage)
  | _ => None
  end.
Definition shownFieldErrors (tr : list (event ui)) : list (string * string) :=
  omap shownFieldError tr.

(** The field and message [showValidationErrors] shows for a message. *)
Definition annotation (m : string) : list (string * string) :=
  match fieldOfError m with Some field => [(field, m)] | None => [] end.

(** A stand-in for the global [parseFloat] on the texts of the examples:
    "5" reads as 5, and the empty text has no number to read. *)
Definition parseFloatSample (s : string) : float :=
  if String.eqb s "5" then 5%float else PrimFloat.nan.

(** A store adapter and a browser that answer every call of the controller
    with a failure of the store. *)
Definition failing : forall R, ui R -> R :=
  fun R c =>
    match c with
    | CreateProduct _ => Rejected (mkError "unavailable" (Some "unavailable"))
    | UpdateProduct _ _ => Rejected (mkError "unavailable" (Some "unavailable"))
    | GetAllProducts => Fulfilled 1
    | _ => tt
    end.

(** Every character of [s] is white space. *)
Fixpoint onlyWhiteSpace (s : string) : bool :=
  match s with
  | EmptyString => true
  | String c s' => isWhiteSpace c && onlyWhiteSpace s'
  end.

(** [t] occurs in [s]. *)
Definition substring_of (t s : string) : Prop :=
  exists a b, s = a +:+ t +:+ b.

(** The rules of the data model, in the words of the specification:
    name non-empty with trimmed length 2..100, description non-empty with
    trimmed length 10..500, price numeric with 0 <= price <= 999,999.99,
    category non-empty. *)
Definition nameRule (v : value) : bool :=
  match v with
  | VString s => (2 <=? String.length (trim s)) && (String.length (trim s) <=? 100)
  | _ => false
  end.
Definition descriptionRule (v : value) : bool :=
  match v with
  | VString s => (10 <=? String.length (trim s)) && (String.length (trim s) <=? 500)
  | _ => false
  end.
Definition priceRule (v : value) : bool :=
  match v with
  | VNumber x => ((0 <=? x) && (x <=? 999999.99))%float
  | _ => false
  end.
Definition categoryRule (v : value) : bool :=
  match v with
  | VString s => negb (String.length (trim s) =? 0)
  | _ => false
  end.

(** The object literal [{ name, description, price, category }]. *)
Definition record (name description : string) (price : float) (category : string)
  : value :=
  VObject [ ("name", VString name); ("description", VString description);
            ("price", VNumber price); ("category", VString category) ].

(** A string of [n] letters. *)
Fixpoint letters (n : nat) : string :=
  match n with O => "" | S n' => String "a" (letters n') end.

(** [productData] passes the first test of the validators: it is an object. *)
Definition isObject (v : value) : bool :=
  truthy v && String.eqb (typeof v) "object".

(** The messages pushed by each block of [validateProductData]. *)
Definition nameMessages (name : value) : list string :=
  if negb (truthy name) || negb (String.eqb (typeof name) "string")
     || (String.length (trimOf name) =? 0)
  then [msg_name_required]
  else if String.length (trimOf name) <? 2
  then [msg_name_short]
  else if 100 <? String.length (trimOf name)
  then [msg_name_long]
  else [].
Definition descriptionMessages (description : value) : list string :=
  if negb (truthy description) || negb (String.eqb (typeof description) "string")
     || (String.length (trimOf description) =? 0)
  then [msg_description_required]
  else if String.length (trimOf description) <? 10
  then [msg_description_short]
  else if 500 <? String.length (trimOf description)
  then [msg_description_long]
  else [].
Definition priceMessages (price : value) : list string :=
  if negb (String.eqb (typeof price) "number") || PrimFloat.is_nan (numberOf price)
  then [msg_price_number]
  else if (numberOf price <? 0)%float
  then [msg_price_negative]
  else if (999999.99 <? numberOf price)%float
  then [msg_price_max]
  else [].
Definition categoryMessages (category : value) : list string :=
  if negb (truthy category) || negb (String.eqb (typeof category) "string")
     || (String.length (trimOf category) =? 0)
  then [msg_category_required]
  else [].

(** A required text field in the words of the specification: present, a
    string, and not made of white space only. *)
Definition textPresent (v : value) : bool :=
  match v with
  | VString s => negb (onlyWhiteSpace s)
  | _ => false
  end.

(** A well-typed non-negative number. *)
Definition nonNegativeNumber (v : value) : bool :=
  match v with
  | VNumber x => (0 <=? x)%float
  | _ => false
  end.

(** The required fields are present and well formed, as the specification
    words it. *)
Definition wellFormed (productData : value) : bool :=
  isObject productData
  && textPresent (get productData "name")
  && textPresent (get productData "description")
  && nonNegativeNumber (get productData "price")
  && textPresent (get productData "category").

(** The price test of [createProduct] and [updateProduct]: a Number that is
    not below 0. *)
Definition priceNotBelowZero (v : value) : bool :=
  match v with
  | VNumber x => negb (x <? 0)%float
  | _ => false
  end.

(** The fields [createProduct] and [updateProduct] let through. *)
Definition accepted (productData : value) : bool :=
  isObject productData
  && textPresent (get productData "name")
  && textPresent (get productData "description")
  && priceNotBelowZero (get productData "price")
  && textPresent (get productData "category").

(** The error of the first field test that fails, in the order of the
    source. *)
Definition firstError (productData : value) : option error :=
  if negb (isObject productData) then Some (Error msg_data_required)
  else if negb (textPresent (get productData "name")) then
    Some (Error msg_name_required)
  else if negb (textPresent (get productData "description")) then
    Some (Error msg_description_required)
  else if negb (priceNotBelowZero (get productData "price")) then
    Some (Error msg_price_number_min)
  else if negb (textPresent (get productData "category")) then
    Some (Error msg_category_required)
  else None.

(** The four fields both functions write. *)
Definition writtenFields (productData : value) : list (string * value) :=
  [ ("name", VString (trimOf (get productData "name")));
    ("description", VString (trimOf (get productData "description")));
    ("price", VNumber (parseFloatOfNumber (numberOf (get productData "price"))));
    ("category", VString (trimOf (get productData "category"))) ].

(** A product identifier the adapter lets through: a non-empty string. *)
Definition isIdentifier (productId : value) : bool :=
  truthy productId && String.eqb (typeof productId) "string".

(** The error of an adapter function that throws before any call. *)
Definition thrown {A} (p : async sdk A) : option error :=
  match p with Ret (Rejected e) => Some e | _ => None end.

(** [p] inserts [data]: it calls [addDoc] on the collection, then returns
    the identifier of the new document, or throws the error of the store. *)
Definition inserts (p : async sdk string) (data : list (string * value)) : Prop :=
  exists k,
    p = Vis (addDoc (collection COLLECTION_NAME) data) k
    /\ (forall docRef, k (Fulfilled docRef) = Ret (Fulfilled (ref_id docRef)))
    /\ (forall e, k (Rejected e) = throw e).

(** [p] updates the document [productId] with [data], then returns, or
    throws the error of the store. *)
Definition updates (p : async sdk unit) (productId : string)
    (data : list (string * value)) : Prop :=
  exists k,
    p = Vis (updateDoc (doc COLLECTION_NAME productId) data) k
    /\ (forall u, k (Fulfilled u) = Ret (Fulfilled tt))
    /\ (forall e, k (Rejected e) = throw e).

(** [p] deletes the document [productId], then returns, or throws the
    error of the store. *)
Definition deletes (p : async sdk unit) (productId : string) : Prop :=
  exists k,
    p = Vis (deleteDoc (doc COLLECTION_NAME productId)) k
    /\ (forall u, k (Fulfilled u) = Ret (Fulfilled tt))
    /\ (forall e, k (Rejected e) = throw e).

(** [text] is a substring of [s] when case is ignored. *)
Definition caseInsensitiveSubstring (text s : string) : Prop :=
  substring_of (toLowerCase text) (toLowerCase s).

(** The sum of the prices, in the order of the list. *)
Definition sumPrices (products : list product) : float :=
  fold_left (fun acc p => (acc + product_price p)%float) products 0%float.

(** The number of products of a category. *)
Definition countOf (c : string) (products : list product) : nat :=
  List.length (List.filter (fun p => String.eqb (product_category p) c) products).

(** Every counter of the map is a count of at least 1. *)
Definition counting (cats : gmap string counter) : Prop :=
  forall c x, cats !! c = Some x -> exists n, x = Count n /\ 1 <= n.

(** The count the map holds for a category. *)
Definition held (cats : gmap string counter) (c : string) : nat :=
  match cats !! c with Some (Count n) => n | _ => 0 end.

(** A product with the given price and category. *)
Definition sampleProduct (i : string) (price : float) (category : string)
  : product :=
  {| product_id := i; product_name := "Lamp";
     product_description := "A desk lamp"; product_price := price;
     product_category := category;
     product_createdAt := VNull; product_updatedAt := VNull |}.

(** [s] is empty or starts with a character that is no white space. *)
Definition startsClean (s : string) : bool :=
  match s with
  | EmptyString => true
  | String c _ => negb (isWhiteSpace c)
  end.

(** The set of the categories of a list of products. *)
Definition categoriesOf (products : list product) : gset string :=
  list_to_set (map product_category products).

(** The messages [validateProductData] can report on an object. *)
Definition fieldMessages : list string :=
  [ msg_name_required; msg_name_short; msg_name_long;
    msg_description_required; msg_description_short; msg_description_long;
    msg_price_number; msg_price_negative; msg_price_max;
    msg_category_required ].

(** The identifiers [deleteProduct] is called with in a trace. *)
Definition deleteCall (e : event table) : option value :=
  match projT2 e with DeleteProduct productId => Some productId | _ => None end.
Definition deleteCalls (tr : list (event table)) : list value :=
  omap deleteCall tr.

(** The question [handleDeleteProduct] asks for a product. *)
Definition confirmQuestion (product : product) : string :=
  String "191"%char "Est" +:+ a_acute
  +:+ "s seguro de que quieres eliminar el producto "
  +:+ dquote +:+ product_name product +:+ dquote +:+ "?".

(** The products of the last snapshot among the inputs, or [current] when
    there is none. *)
Definition lastDelivered (ins : list input) (current : list product)
  : list product :=
  fold_left (fun cur i => match i with Delivered products => products | _ => cur end)
            ins current.

(** The error of a subscription that the security rules refuse. *)
Definition permissionDenied : error :=
  mkError "Missing or insufficient permissions." (Some "permission-denied").

(** A user who confirms, over a store that accepts the deletion. *)
Definition agreeing : forall R, table R -> R :=
  fun R c =>
    match c with
    | Controller c' => failing _ c'
    | DeleteProduct _ => Fulfilled tt
    | Confirm _ => true
    | ClearFieldError _ => tt
    | LoadFormValues _ _ _ _ => tt
    | ScrollFormIntoView => tt
    end.

(** [c] occurs in [s]. *)
Fixpoint occurs (c : ascii) (s : string) : bool :=
  match s with
  | EmptyString => false
  | String d rest => Ascii.eqb c d || occurs c rest
  end.

(** None of the characters that [escapeHtml] rewrites occurs in [s]. *)
Definition plainText (s : string) : bool :=
  negb (occurs "&" s || occurs "160" s || occurs "<" s || occurs ">" s).

(** The form was reset in a trace. *)
Definition isFormReset (e : event ui) : bool :=
  match projT2 e with FormReset => true | _ => false end.
Definition formWasReset (tr : list (event ui)) : bool := existsb isFormReset tr.

(** The controller imports [createProduct], [updateProduct] and
    [deleteProduct] from the adapter: over a store that answers the Firestore
    calls with [store], a call of the controller to one of them is answered
    with what that function returns; [browser] answers the other calls. *)
Definition linked (store : forall R, sdk R -> R) (browser : forall R, ui R -> R)
  : forall R, ui R -> R :=
  fun R c =>
    match c in ui R0 return R0 -> R0 with
    | CreateProduct productData => fun _ => (run store (createProduct productData)).2
    | UpdateProduct productId productData =>
        fun _ => (run store (updateProduct productId productData)).2
    | _ => fun r => r
    end (browser R c).

Definition linkedTable (store : forall R, sdk R -> R)
    (browser : forall R, table R -> R) : forall R, table R -> R :=
  fun R c =>
    match c in table R0 return R0 -> R0 with
    | DeleteProduct productId => fun _ => (run store (deleteProduct productId)).2
    | _ => fun r => r
    end (browser R c).

(** A store that accepts every write. *)
Definition accepting : forall R, sdk R -> R :=
  fun R c =>
    match c with
    | addDoc coll _ => Fulfilled (doc coll "d1")
    | updateDoc _ _ => Fulfilled tt
    | deleteDoc _ => Fulfilled tt
    end.

(* ================================================================== *)
(** ** Lemmas on strings *)

Lemma trimEnd_onlyWhiteSpace (s : string) :
  onlyWhiteSpace s = true -> trimEnd s = "".
Proof.
  induction s as [|c s IH]; simpl; [reflexivity|].
  intros [Hc Hs]%andb_prop. rewrite (IH Hs), Hc. reflexivity.
Qed.

Lemma trimStart_onlyWhiteSpace (s : string) :
  onlyWhiteSpace s = true -> trimStart s = "".
Proof.
  induction s as [|c s IH]; simpl; [reflexivity|].
  intros [Hc Hs]%andb_prop. rewrite Hc. exact (IH Hs).
Qed.

Lemma trim_onlyWhiteSpace (s : string) :
  onlyWhiteSpace s = true -> trim s = "".
Proof.
  intros H. unfold trim. rewrite (trimStart_onlyWhiteSpace s H). reflexivity.
Qed.

Lemma toLowerChar_whiteSpace (c : ascii) :
  isWhiteSpace c = true -> toLowerChar c = c.
Proof.
  destruct c as [[] [] [] [] [] [] [] []]; vm_compute; congruence.
Qed.

Lemma toLowerCase_onlyWhiteSpace (s : string) :
  onlyWhiteSpace s = true -> toLowerCase s = s.
Proof.
  induction s as [|c s IH]; simpl; [reflexivity|].
  intros [Hc Hs]%andb_prop.
  rewrite (toLowerChar_whiteSpace c Hc), (IH Hs). reflexivity.
Qed.

Lemma prefix_app (p s : string) :
  String.prefix p s = true <-> exists t, s = p +:+ t.
Proof.
  revert s. induction p as [|c p IH]; intros s.
  - split; [intros _; exists s; reflexivity | destruct s; reflexivity].
  - destruct s as [|d s]; simpl.
    + split; [discriminate | intros [t Ht]; discriminate].
    + destruct (ascii_dec c d) as [->|Hne].
      * rewrite IH. split; intros [t Ht]; exists t.
        -- rewrite Ht. reflexivity.
        -- injection Ht as Ht. exact Ht.
      * split; [discriminate|]. intros [t Ht]. injection Ht as Hd _.
        congruence.
Qed.

Lemma includes_substring (s t : string) :
  includes s t = true <-> substring_of t s.
Proof.
  unfold substring_of. induction s as [|c s IH].
  - cbn [includes]. rewrite orb_false_r, prefix_app. split.
    + intros [b Hb]. exists "", b. exact Hb.
    + intros (a & b & H). destruct a; [exists b; exact H | discriminate].
  - cbn [includes]. rewrite orb_true_iff, IH, prefix_app. split.
    + intros [[b Hb] | (a & b & H)].
      * exists "", b. exact Hb.
      * exists (String c a), b. simpl. rewrite H. reflexivity.
    + intros (a & b & H). destruct a as [|d a].
      * left. exists b. exact H.
      * right. injection H as _ H. exists a, b. exact H.
Qed.

Lemma includes_empty (s : string) : includes s "" = true.
Proof. destruct s; reflexivity. Qed.

Lemma filter_all {A} (f : A -> bool) (l : list A) :
  (forall x, In x l -> f x = true) -> List.filter f l = l.
Proof.
  induction l as [|x l IH]; simpl; intros H; [reflexivity|].
  rewrite (H x (or_introl eq_refl)), IH; [reflexivity|].
  intros y Hy. apply H. right. exact Hy.
Qed.

Lemma filter_none {A} (f : A -> bool) (l : list A) :
  (forall x, In x l -> f x = false) -> List.filter f l = [].
Proof.
  induction l as [|x l IH]; simpl; intros H; [reflexivity|].
  rewrite (H x (or_introl eq_refl)). apply IH.
  intros y Hy. apply H. right. exact Hy.
Qed.

(* ================================================================== *)
(** ** Lemmas on numbers *)

Lemma SFcompare_refl (x : spec_float) :
  x <> S754_nan -> SFcompare x x = Some Eq.
Proof.
  destruct x as [s|s| |s m e]; intros H; try congruence; simpl.
  - reflexivity.
  - destruct s; reflexivity.
  - destruct s; rewrite Z.compare_refl, Pos.compare_cont_refl; reflexivity.
Qed.

Lemma ltb_is_nan (x y : float) : (x <? y)%float = true -> is_nan x = false.
Proof.
  unfold is_nan. rewrite ltb_spec, FloatAxioms.eqb_spec. unfold SFltb, SFeqb.
  intros H. rewrite SFcompare_refl; [reflexivity|].
  intros Hx. rewrite Hx in H. simpl in H. discriminate.
Qed.

Lemma SFcompare_antisym (x y : spec_float) :
  SFcompare y x = option_map CompOpp (SFcompare x y).
Proof.
  destruct x as [s|s| |s m e], y as [t|t| |t n f]; simpl;
    try reflexivity; try (destruct s; reflexivity);
    try (destruct t; reflexivity); try (destruct s, t; reflexivity).
  destruct s, t; try reflexivity;
    rewrite (Z.compare_antisym e f);
    destruct (e ?= f)%Z; simpl; try reflexivity;
    f_equal; rewrite ?CompOpp_involutive;
    [ exact (Pos.compare_cont_antisym n m Eq)
    | symmetry; exact (Pos.compare_cont_antisym m n Eq) ].
Qed.

Lemma SFcompare_nan (a b : spec_float) :
  SFcompare a b = None <-> a = S754_nan \/ b = S754_nan.
Proof.
  destruct a as [s|s| |s m e], b as [t|t| |t n f]; simpl;
    split; try discriminate; auto; intros [H|H]; discriminate.
Qed.

Lemma SFleb_ltb (a b : spec_float) :
  SFleb a b = SFeqb a a && SFeqb b b && negb (SFltb b a).
Proof.
  unfold SFleb, SFltb, SFeqb. rewrite (SFcompare_antisym a b).
  destruct (SFcompare a b) as [c|] eqn:Hc.
  - assert (Ha : a <> S754_nan).
    { intros ->. discriminate. }
    assert (Hb : b <> S754_nan).
    { intros ->. destruct a; discriminate. }
    rewrite (SFcompare_refl a Ha), (SFcompare_refl b Hb).
    destruct c; reflexivity.
  - apply SFcompare_nan in Hc as [-> | ->]; simpl.
    + reflexivity.
    + rewrite andb_false_r. reflexivity.
Qed.

Lemma leb_ltb (x y : float) :
  (x <=? y)%float = negb (is_nan x) && negb (is_nan y) && negb (y <? x)%float.
Proof.
  unfold is_nan. rewrite !negb_involutive.
  rewrite leb_spec, ltb_spec, !FloatAxioms.eqb_spec. apply SFleb_ltb.
Qed.

(* ================================================================== *)
(** ** validateProductData *)

Lemma validateProductData_object (productData : value) :
  isObject productData = true ->
  errors (validateProductData productData)
  = nameMessages (get productData "name")
    ++ descriptionMessages (get productData "description")
    ++ priceMessages (get productData "price")
    ++ categoryMessages (get productData "category")
  /\ isValid (validateProductData productData)
     = (List.length (errors (validateProductData productData)) =? 0).
Proof.
  unfold isObject, validateProductData. intros [Ht Ho]%andb_prop.
  rewrite Ht, Ho. cbn [negb orb].
  unfold nameMessages, descriptionMessages, priceMessages, categoryMessages, push.
  generalize (get productData "name") (get productData "description")
    (get productData "price") (get productData "category").
  intros name description price category.
  repeat match goal with
         | |- context [if ?c then _ else _] => destruct c
         end; split; reflexivity.
Qed.

Lemma validateProductData_not_object (productData : value) :
  isObject productData = false ->
  validateProductData productData
  = {| isValid := false; errors := [msg_data_required] |}.
Proof.
  unfold isObject, validateProductData. intros H.
  destruct (truthy productData); simpl in *; [rewrite H|]; reflexivity.
Qed.

Lemma fieldOfError_messages :
  (fieldOfError msg_name_required = Some "name"
   /\ fieldOfError msg_name_short = Some "name"
   /\ fieldOfError msg_name_long = Some "name")
  /\ (fieldOfError msg_description_required = Some "description"
      /\ fieldOfError msg_description_short = Some "description"
      /\ fieldOfError msg_description_long = Some "description")
  /\ (fieldOfError msg_price_number = Some "price"
      /\ fieldOfError msg_price_negative = Some "price"
      /\ fieldOfError msg_price_max = Some "price")
  /\ fieldOfError msg_category_required = Some "category".
Proof. repeat split; vm_compute; reflexivity. Qed.

Lemma trim_length_empty (s : string) :
  String.eqb s "" = true -> String.length (trim s) = 0.
Proof. intros ->%String.eqb_eq. reflexivity. Qed.

Ltac bool_cases :=
  repeat match goal with
         | |- context [String.eqb ?s ""] =>
             let H := fresh "He" in
             destruct (String.eqb s "") eqn:H;
             [apply trim_length_empty in H|]
         | |- context [?a =? ?b] => destruct (Nat.eqb_spec a b)
         | |- context [?a <? ?b] => destruct (Nat.ltb_spec a b)
         | |- context [?a <=? ?b] => destruct (Nat.leb_spec a b)
         end.

Ltac not_a_string m :=
  right; split; [reflexivity|]; exists m; split; [|assumption];
  match goal with
  | |- context [String.eqb (typeof ?v) "string"] =>
      change (String.eqb (typeof v) "string") with false
  end;
  cbn [negb]; rewrite orb_true_r; reflexivity.

(** Each block pushes nothing when its rule holds, and otherwise one
    message, shown on its own field. *)
Lemma nameMessages_spec (v : value) :
  (nameRule v = true /\ nameMessages v = [])
  \/ (nameRule v = false
      /\ exists m, nameMessages v = [m] /\ fieldOfError m = Some "name").
Proof.
  destruct fieldOfError_messages as ((H1 & H2 & H3) & _).
  unfold nameRule, nameMessages.
  destruct v as [| |b|x|s| |props]; try not_a_string msg_name_required.
  cbn [truthy typeof trimOf]. change ("string" =? "string")%string with true.
  bool_cases; cbn [negb orb andb]; try lia;
    first [ left; split; reflexivity
          | right; split; [reflexivity | eexists; split; [reflexivity | assumption]] ].
Qed.

Lemma descriptionMessages_spec (v : value) :
  (descriptionRule v = true /\ descriptionMessages v = [])
  \/ (descriptionRule v = false
      /\ exists m, descriptionMessages v = [m]
                   /\ fieldOfError m = Some "description").
Proof.
  destruct fieldOfError_messages as (_ & (H1 & H2 & H3) & _).
  unfold descriptionRule, descriptionMessages.
  destruct v as [| |b|x|s| |props]; try not_a_string msg_description_required.
  cbn [truthy typeof trimOf]. change ("string" =? "string")%string with true.
  bool_cases; cbn [negb orb andb]; try lia;
    first [ left; split; reflexivity
          | right; split; [reflexivity | eexists; split; [reflexivity | assumption]] ].
Qed.

Lemma categoryMessages_spec (v : value) :
  (categoryRule v = true /\ categoryMessages v = [])
  \/ (categoryRule v = false
      /\ exists m, categoryMessages v = [m] /\ fieldOfError m = Some "category").
Proof.
  destruct fieldOfError_messages as (_ & _ & _ & Hc).
  unfold categoryRule, categoryMessages.
  destruct v as [| |b|x|s| |props]; try not_a_string msg_category_required.
  cbn [truthy typeof trimOf]. change ("string" =? "string")%string with true.
  bool_cases; cbn [negb orb andb]; try lia;
    first [ left; split; reflexivity
          | right; split; [reflexivity | eexists; split; [reflexivity | assumption]] ].
Qed.

Lemma priceMessages_spec (v : value) :
  (priceRule v = true /\ priceMessages v = [])
  \/ (priceRule v = false
      /\ exists m, priceMessages v = [m] /\ fieldOfError m = Some "price").
Proof.
  destruct fieldOfError_messages as (_ & _ & (H1 & H2 & H3) & _).
  unfold priceRule, priceMessages.
  destruct v as [| |b|x|s| |props];
    try (right; split; [reflexivity | eexists; split; [reflexivity | assumption]]).
  cbn [typeof numberOf]. change ("number" =? "number")%string with true.
  rewrite !leb_ltb.
  change (is_nan 0) with false. change (is_nan 999999.99) with false.
  destruct (is_nan x), (x <? 0)%float, (999999.99 <? x)%float; cbn [negb orb andb];
    first [ left; split; reflexivity
          | right; split; [reflexivity | eexists; split; [reflexivity | assumption]] ].
Qed.

Lemma block_in (rule : bool) (msgs : list string) (field : string) (m : string) :
  (rule = true /\ msgs = [])
  \/ (rule = false /\ exists m', msgs = [m'] /\ fieldOfError m' = Some field) ->
  In m msgs -> rule = false /\ fieldOfError m = Some field.
Proof.
  intros [[_ ->] | (Hr & m' & -> & Hf)] Hin; [destruct Hin|].
  destruct Hin as [<- | []]. split; assumption.
Qed.

Lemma block_reported (rule : bool) (msgs : list string) (field : string) :
  (rule = true /\ msgs = [])
  \/ (rule = false /\ exists m', msgs = [m'] /\ fieldOfError m' = Some field) ->
  rule = false -> exists m, In m msgs /\ fieldOfError m = Some field.
Proof.
  intros [[Hr _] | (_ & m' & -> & Hf)] Hrule; [congruence|].
  exists m'. split; [left; reflexivity | exact Hf].
Qed.

Lemma block_length (rule : bool) (msgs : list string) (field : string) :
  (rule = true /\ msgs = [])
  \/ (rule = false /\ exists m', msgs = [m'] /\ fieldOfError m' = Some field) ->
  List.length msgs = if rule then 0 else 1.
Proof. intros [[-> ->] | (-> & m' & -> & _)]; reflexivity. Qed.

(** On an object, a field breaks its rule exactly when the result carries
    a message shown on that field; the result is valid exactly when the
    four rules hold, and then it carries no message. *)
Lemma validateProductData_rules (productData : value) :
  isObject productData = true ->
  let r := validateProductData productData in
  isValid r
  = nameRule (get productData "name")
    && descriptionRule (get productData "description")
    && priceRule (get productData "price")
    && categoryRule (get productData "category")
  /\ (isValid r = true <-> errors r = [])
  /\ (nameRule (get productData "name") = false
      <-> exists m, In m (errors r) /\ fieldOfError m = Some "name")
  /\ (descriptionRule (get productData "description") = false
      <-> exists m, In m (errors r) /\ fieldOfError m = Some "description")
  /\ (priceRule (get productData "price") = false
      <-> exists m, In m (errors r) /\ fieldOfError m = Some "price")
  /\ (categoryRule (get productData "category") = false
      <-> exists m, In m (errors r) /\ fieldOfError m = Some "category").
Proof.
  intros Hobj r. subst r.
  destruct (validateProductData_object productData Hobj) as [-> ->].
  pose proof (nameMessages_spec (get productData "name")) as HN.
  pose proof (descriptionMessages_spec (get productData "description")) as HD.
  pose proof (priceMessages_spec (get productData "price")) as HP.
  pose proof (categoryMessages_spec (get productData "category")) as HC.
  pose proof (block_length _ _ _ HN) as LN.
  pose proof (block_length _ _ _ HD) as LD.
  pose proof (block_length _ _ _ HP) as LP.
  pose proof (block_length _ _ _ HC) as LC.
  assert (Hin : forall m field,
             In m (nameMessages (get productData "name")
                   ++ descriptionMessages (get productData "description")
                   ++ priceMessages (get productData "price")
                   ++ categoryMessages (get productData "category")) ->
             fieldOfError m = Some field ->
             (field = "name" /\ nameRule (get productData "name") = false)
             \/ (field = "description"
                 /\ descriptionRule (get productData "description") = false)
             \/ (field = "price" /\ priceRule (get productData "price") = false)
             \/ (field = "category"
                 /\ categoryRule (get productData "category") = false)).
  { intros m field Hm Hf. rewrite !in_app_iff in Hm.
    destruct Hm as [Hm | [Hm | [Hm | Hm]]];
      [ apply (block_in _ _ _ _ HN) in Hm
      | apply (block_in _ _ _ _ HD) in Hm
      | apply (block_in _ _ _ _ HP) in Hm
      | apply (block_in _ _ _ _ HC) in Hm ];
      destruct Hm as [Hr Hf']; rewrite Hf' in Hf; injection Hf as <-; auto 6. }
  split; [|split].
  - rewrite !length_app, LN, LD, LP, LC.
    destruct (nameRule _), (descriptionRule _), (priceRule _), (categoryRule _);
      reflexivity.
  - rewrite Nat.eqb_eq. apply length_zero_iff_nil.
  - repeat split.
    all: try (intros Hr;
              first [ destruct (block_reported _ _ _ HN Hr) as (m & Hm & Hf)
                    | destruct (block_reported _ _ _ HD Hr) as (m & Hm & Hf)
                    | destruct (block_reported _ _ _ HP Hr) as (m & Hm & Hf)
                    | destruct (block_reported _ _ _ HC Hr) as (m & Hm & Hf) ];
              exists m; split; [rewrite !in_app_iff; auto 6 | exact Hf]).
    all: intros (m & Hm & Hf);
      destruct (Hin m _ Hm Hf) as [[E H] | [[E H] | [[E H] | [E H]]]];
      first [exact H | discriminate E].
Qed.

Lemma flags_of_report (r : validation) (field : string) :
  (isValid r = true <-> errors r = []) ->
  (exists m, In m (errors r) /\ fieldOfError m = Some field) ->
  flags field r.
Proof.
  intros Hv (m & Hm & Hf).
  assert (Hne : errors r <> []) by (intros E; rewrite E in Hm; destruct Hm).
  repeat split; [|exact Hne|exists m; split; assumption].
  destruct (isValid r); [|reflexivity]. destruct Hne. apply Hv. reflexivity.
Qed.

Ltac flag_field :=
  match goal with
  | |- flags _ (validateProductData ?pd) =>
      destruct (validateProductData_rules pd eq_refl)
        as (_ & Hv & Hn & Hd & Hp & Hc);
      apply (flags_of_report _ _ Hv);
      first [apply Hn | apply Hd | apply Hp | apply Hc]
  end.

(** C1.  [validateProductData] is a total function of its input that reports
    every rule violation at once.  On an object, a field breaks its rule
    (name: trimmed length 2..100; description: trimmed length 10..500; price:
    a number with 0 <= price <= 999,999.99; category: non-empty) exactly when
    the result carries a message shown on that field, whatever the other
    fields hold, and the result is valid exactly when the four rules hold,
    with an empty list of messages.  In particular an empty, 1-character or
    101-character name, an empty or 9-character description, a negative
    price, the price 1,000,000.00 and an empty category are each reported
    invalid with a message for the field, and the record with a name of 2
    characters, a description of 10 characters, price 0 and category "x" is
    valid with no message. *)
Theorem validateProductData_reports_every_violation :
  (forall productData : value,
      let r := validateProductData productData in
      (isValid r = true <-> errors r = [])
      /\ (isObject productData = false -> errors r = [msg_data_required])
      /\ (isObject productData = true ->
          isValid r
          = nameRule (get productData "name")
            && descriptionRule (get productData "description")
            && priceRule (get productData "price")
            && categoryRule (get productData "category")
          /\ (nameRule (get productData "name") = false
              <-> exists m, In m (errors r) /\ fieldOfError m = Some "name")
          /\ (descriptionRule (get productData "description") = false
              <-> exists m, In m (errors r)
                            /\ fieldOfError m = Some "description")
          /\ (priceRule (get productData "price") = false
              <-> exists m, In m (errors r) /\ fieldOfError m = Some "price")
          /\ (categoryRule (get productData "category") = false
              <-> exists m, In m (errors r)
                            /\ fieldOfError m = Some "category")))
  /\ (forall d p c, flags "name" (validateProductData (record "" d p c)))
  /\ (forall d p c, flags "name" (validateProductData (record "A" d p c)))
  /\ (forall d p c,
         flags "name" (validateProductData (record (letters 101) d p c)))
  /\ (forall n p c, flags "description" (validateProductData (record n "" p c)))
  /\ (forall n p c,
         flags "description" (validateProductData (record n (letters 9) p c)))
  /\ (forall n d x c,
         (x <? 0)%float = true ->
         flags "price" (validateProductData (record n d x c)))
  /\ (forall n d c, flags "price" (validateProductData (record n d 1000000 c)))
  /\ (forall n d p, flags "category" (validateProductData (record n d p "")))
  /\ validateProductData (record "AB" (letters 10) 0 "x")
     = {| isValid := true; errors := [] |}.
Proof.
  split; [|repeat apply conj].
  - intros productData r. subst r.
    destruct (isObject productData) eqn:Hobj.
    + destruct (validateProductData_rules productData Hobj)
        as (Hr & Hv & Hn & Hd & Hp & Hc).
      repeat split; try tauto; try apply Hv; try discriminate.
    + rewrite (validateProductData_not_object productData Hobj). simpl.
      repeat split; try discriminate; reflexivity.
  - intros d p c. flag_field. reflexivity.
  - intros d p c. flag_field. reflexivity.
  - intros d p c. flag_field. reflexivity.
  - intros n p c. flag_field. reflexivity.
  - intros n p c. flag_field. reflexivity.
  - intros n d x c Hx. flag_field.
    change (priceRule (VNumber x) = false). unfold priceRule.
    rewrite (leb_ltb 0 x), Hx, andb_false_r. reflexivity.
  - intros n d c. flag_field. reflexivity.
  - intros n d p. flag_field. reflexivity.
  - reflexivity.
Qed.

(* ================================================================== *)
(** ** createProduct, updateProduct, deleteProduct *)

Lemma trimEnd_empty (s : string) : trimEnd s = "" -> onlyWhiteSpace s = true.
Proof.
  induction s as [|c s IH]; simpl; [reflexivity|].
  destruct (trimEnd s); [|discriminate].
  destruct (isWhiteSpace c); [|discriminate].
  intros _. apply IH. reflexivity.
Qed.

Lemma trimStart_whiteSpace (s : string) :
  onlyWhiteSpace (trimStart s) = true -> onlyWhiteSpace s = true.
Proof.
  induction s as [|c s IH]; simpl; [reflexivity|].
  destruct (isWhiteSpace c) eqn:Hc; [exact IH|].
  simpl. rewrite Hc. discriminate.
Qed.

Lemma trim_length_zero (s : string) :
  (String.length (trim s) =? 0) = onlyWhiteSpace s.
Proof.
  destruct (onlyWhiteSpace s) eqn:Hs.
  - rewrite (trim_onlyWhiteSpace s Hs). reflexivity.
  - apply Nat.eqb_neq. intros H.
    assert (Ht : trim s = "") by (destruct (trim s); [reflexivity|discriminate]).
    apply trimEnd_empty, trimStart_whiteSpace in Ht. congruence.
Qed.

(** The test [!v || typeof v !== 'string' || v.trim().length === 0]. *)
Lemma blank_test (v : value) :
  negb (truthy v) || negb (String.eqb (typeof v) "string")
  || (String.length (trimOf v) =? 0)
  = negb (textPresent v).
Proof.
  destruct v as [| |b|x|s| |props]; cbn [typeof textPresent negb];
    try (change (String.eqb _ "string") with false;
         cbn [negb]; rewrite orb_true_r; reflexivity).
  cbn [truthy trimOf]. change ("string" =? "string")%string with true.
  rewrite trim_length_zero, !negb_involutive. cbn [negb].
  rewrite orb_false_r. destruct (String.eqb_spec s "") as [->|Hs]; [reflexivity|].
  reflexivity.
Qed.

(** The test [typeof v !== 'number' || v < 0]. *)
Lemma price_test (v : value) :
  negb (String.eqb (typeof v) "number") || (numberOf v <? 0)%float
  = negb (priceNotBelowZero v).
Proof.
  destruct v as [| |b|x|s| |props]; try reflexivity.
  cbn [typeof numberOf priceNotBelowZero].
  change ("number" =? "number")%string with true.
  rewrite negb_involutive. reflexivity.
Qed.

Lemma textPresent_string (v : value) :
  textPresent v = true -> exists s, v = VString s.
Proof. destruct v; try discriminate. intros _. eexists. reflexivity. Qed.

Lemma priceNotBelowZero_number (v : value) :
  priceNotBelowZero v = true -> exists x, v = VNumber x.
Proof. destruct v; try discriminate. intros _. eexists. reflexivity. Qed.

Lemma object_test (v : value) :
  negb (truthy v) || negb (String.eqb (typeof v) "object") = negb (isObject v).
Proof. unfold isObject. rewrite negb_andb. reflexivity. Qed.

Lemma identifier_test (v : value) :
  negb (truthy v) || negb (String.eqb (typeof v) "string") = negb (isIdentifier v).
Proof. unfold isIdentifier. rewrite negb_andb. reflexivity. Qed.

Lemma firstError_accepted (productData : value) :
  firstError productData = None <-> accepted productData = true.
Proof.
  unfold firstError, accepted.
  destruct (isObject productData), (textPresent (get productData "name")),
    (textPresent (get productData "description")),
    (priceNotBelowZero (get productData "price")),
    (textPresent (get productData "category")); simpl; split; congruence.
Qed.

(** [createProduct] throws the error of the first failing test without
    calling the store, and otherwise inserts the trimmed fields with both
    timestamps. *)
Lemma createProduct_cases (productData : value) :
  match firstError productData with
  | Some e => createProduct productData = throw e
  | None =>
      inserts (createProduct productData)
        (writtenFields productData
         ++ [("createdAt", serverTimestamp); ("updatedAt", serverTimestamp)])
  end.
Proof.
  unfold createProduct, firstError. cbv zeta.
  rewrite object_test, !blank_test, price_test.
  destruct (isObject productData); [|reflexivity].
  destruct (textPresent (get productData "name")); [|reflexivity].
  destruct (textPresent (get productData "description")); [|reflexivity].
  destruct (priceNotBelowZero (get productData "price")); [|reflexivity].
  destruct (textPresent (get productData "category")); [|reflexivity].
  cbn [negb]. eexists. split; [reflexivity|]. split; reflexivity.
Qed.

Lemma updateProduct_cases (productId productData : value) :
  match (if negb (isIdentifier productId) then Some (Error msg_id_required)
         else firstError productData) with
  | Some e => updateProduct productId productData = throw e
  | None =>
      updates (updateProduct productId productData) (stringOf productId)
        (writtenFields productData ++ [("updatedAt", serverTimestamp)])
  end.
Proof.
  unfold updateProduct, firstError. cbv zeta.
  rewrite identifier_test, object_test, !blank_test, price_test.
  destruct (isIdentifier productId); [|reflexivity].
  destruct (isObject productData); [|reflexivity].
  destruct (textPresent (get productData "name")); [|reflexivity].
  destruct (textPresent (get productData "description")); [|reflexivity].
  destruct (priceNotBelowZero (get productData "price")); [|reflexivity].
  destruct (textPresent (get productData "category")); [|reflexivity].
  cbn [negb]. eexists. split; [reflexivity|]. split; reflexivity.
Qed.

Lemma deleteProduct_cases (productId : value) :
  if isIdentifier productId
  then deletes (deleteProduct productId) (stringOf productId)
  else deleteProduct productId = throw (Error msg_id_required).
Proof.
  unfold deleteProduct. rewrite identifier_test.
  destruct (isIdentifier productId); [|reflexivity].
  cbn [negb]. eexists. split; [reflexivity|]. split; reflexivity.
Qed.

Lemma exec_bind {E A B} (p : prog E A) (f : A -> prog E B) tr b :
  exec (bind p f) tr b
  <-> exists tr1 a tr2, exec p tr1 a /\ exec (f a) tr2 b /\ tr = tr1 ++ tr2.
Proof.
  revert tr. induction p as [a|R c k IH]; intros tr; simpl.
  - split.
    + intros H. exists [], a, tr. repeat split; assumption.
    + intros (tr1 & a' & tr2 & [-> ->] & H & ->). exact H.
  - split.
    + intros (r & tr' & -> & H). apply IH in H as (tr1 & a & tr2 & H1 & H2 & ->).
      exists (ev c :: tr1), a, tr2. repeat split; [|exact H2].
      exists r, tr1. split; [reflexivity | exact H1].
    + intros (tr1 & a & tr2 & (r & tr' & -> & H1) & H2 & ->).
      exists r, (tr' ++ tr2). split; [reflexivity|].
      apply IH. exists tr', a, tr2. repeat split; assumption.
Qed.

Lemma exec_run {E A} (answer : forall R, E R -> R) (p : prog E A) :
  exec p (run answer p).1 (run answer p).2.
Proof.
  induction p as [a|R c k IH]; simpl; [split; reflexivity|].
  specialize (IH (answer R c)). destruct (run answer (k (answer R c))) as [tr a].
  exists (answer R c), tr. split; [reflexivity | exact IH].
Qed.

(** A function that inserts, updates or deletes performs that one call and
    no other, and its outcome is the one of the call. *)
Lemma inserts_run p data (answer : forall R, sdk R -> R) :
  inserts p data ->
  run answer p
  = ([ev (addDoc (collection COLLECTION_NAME) data)],
     match answer _ (addDoc (collection COLLECTION_NAME) data) with
     | Fulfilled docRef => Fulfilled (ref_id docRef)
     | Rejected e => Rejected e
     end).
Proof.
  intros (k & -> & Hok & Herr). simpl.
  destruct (answer _ _) as [docRef|e]; [rewrite Hok | rewrite Herr]; reflexivity.
Qed.

Lemma updates_run p productId data (answer : forall R, sdk R -> R) :
  updates p productId data ->
  run answer p
  = ([ev (updateDoc (doc COLLECTION_NAME productId) data)],
     match answer _ (updateDoc (doc COLLECTION_NAME productId) data) with
     | Fulfilled _ => Fulfilled tt
     | Rejected e => Rejected e
     end).
Proof.
  intros (k & -> & Hok & Herr). simpl.
  destruct (answer _ _) as [u|e]; [rewrite Hok | rewrite Herr]; reflexivity.
Qed.

Lemma deletes_run p productId (answer : forall R, sdk R -> R) :
  deletes p productId ->
  run answer p
  = ([ev (deleteDoc (doc COLLECTION_NAME productId))],
     match answer _ (deleteDoc (doc COLLECTION_NAME productId)) with
     | Fulfilled _ => Fulfilled tt
     | Rejected e => Rejected e
     end).
Proof.
  intros (k & -> & Hok & Herr). simpl.
  destruct (answer _ _) as [u|e]; [rewrite Hok | rewrite Herr]; reflexivity.
Qed.

(** The tests of [createProduct] against the wording of the specification:
    the two agree on every input whose price is not NaN. *)
Lemma accepted_wellFormed (productData : value) :
  is_nan (numberOf (get productData "price")) = false
  \/ String.eqb (typeof (get productData "price")) "number" = false ->
  accepted productData = wellFormed productData.
Proof.
  unfold accepted, wellFormed. intros H.
  destruct (get productData "price") as [| |b|x|s| |props]; try reflexivity.
  destruct H as [H | H]; [|discriminate H].
  cbn [priceNotBelowZero nonNegativeNumber numberOf] in *.
  rewrite (leb_ltb 0 x), H. reflexivity.
Qed.

(** X7.  What [createProduct] does on every input: it throws without calling
    the store exactly when a test fails, and otherwise inserts the record of
    the trimmed text fields, the price and both timestamps, and returns the
    identifier the store assigns (or throws the error of the store). *)
Theorem createProduct_accepted (productData : value) :
  (accepted productData = false ->
   exists e, createProduct productData = throw e
             /\ forall answer, run answer (createProduct productData)
                               = ([], Rejected e))
  /\ (accepted productData = true ->
      exists n d x c,
        get productData "name" = VString n
        /\ get productData "description" = VString d
        /\ get productData "price" = VNumber x
        /\ get productData "category" = VString c
        /\ let data :=
             [ ("name", VString (trim n)); ("description", VString (trim d));
               ("price", VNumber (parseFloatOfNumber x));
               ("category", VString (trim c));
               ("createdAt", serverTimestamp); ("updatedAt", serverTimestamp) ] in
           inserts (createProduct productData) data
           /\ forall answer : (forall R, sdk R -> R),
                run answer (createProduct productData)
                = ([ev (addDoc (collection COLLECTION_NAME) data)],
                   match answer _ (addDoc (collection COLLECTION_NAME) data) with
                   | Fulfilled docRef => Fulfilled (ref_id docRef)
                   | Rejected e => Rejected e
                   end)).
Proof.
  pose proof (createProduct_cases productData) as H.
  pose proof (firstError_accepted productData) as Ha.
  split; intros Hacc.
  - destruct (firstError productData) as [e|].
    + exists e. split; [exact H|]. intros answer. rewrite H. reflexivity.
    + rewrite (proj1 Ha eq_refl) in Hacc. discriminate.
  - rewrite (proj2 Ha Hacc) in H. unfold accepted in Hacc.
    apply andb_prop in Hacc as [Hacc Hc]. apply andb_prop in Hacc as [Hacc Hp].
    apply andb_prop in Hacc as [Hacc Hd]. apply andb_prop in Hacc as [_ Hn].
    apply textPresent_string in Hn as [n Hn], Hd as [d Hd], Hc as [c Hc].
    apply priceNotBelowZero_number in Hp as [x Hp].
    exists n, d, x, c. repeat split; try assumption.
    all: unfold writtenFields in H; rewrite Hn, Hd, Hp, Hc in H.
    + exact H.
    + intros answer. apply inserts_run. exact H.
Qed.

(** Data that [validateProductData] reports valid pass the tests of
    [createProduct] and [updateProduct]. *)
Lemma validateProductData_valid_accepted (productData : value) :
  isValid (validateProductData productData) = true ->
  accepted productData = true.
Proof.
  intros Hv. destruct (isObject productData) eqn:Hobj.
  - destruct (validateProductData_rules productData Hobj) as (Hr & _).
    rewrite Hr in Hv. unfold accepted. rewrite Hobj.
    apply andb_prop in Hv as [Hv Hc]. apply andb_prop in Hv as [Hv Hp].
    apply andb_prop in Hv as [Hn Hd].
    assert (Htext : forall v lo hi,
               match v with
               | VString s => (lo <=? String.length (trim s))
                              && (String.length (trim s) <=? hi)
               | _ => false
               end = true -> 1 <= lo -> textPresent v = true).
    { intros v lo hi H Hlo. destruct v as [| |b|x|s| |props]; try discriminate H.
      cbn [textPresent]. destruct (onlyWhiteSpace s) eqn:Hs; [|reflexivity].
      rewrite (trim_onlyWhiteSpace s Hs) in H. cbn [String.length] in H.
      apply andb_prop in H as [H _]. apply Nat.leb_le in H. lia. }
    rewrite (Htext _ 2 100 Hn), (Htext _ 10 500 Hd) by lia.
    destruct (get productData "price") as [| |b|x|s| |props]; try discriminate Hp.
    destruct (get productData "category") as [| |b'|x'|s'| |props'];
      try discriminate Hc.
    cbn [priceRule categoryRule priceNotBelowZero textPresent] in *.
    apply andb_prop in Hp as [Hp _]. rewrite leb_ltb in Hp.
    apply andb_prop in Hp as [_ Hp]. rewrite Hp.
    rewrite trim_length_zero in Hc. rewrite Hc. reflexivity.
  - rewrite (validateProductData_not_object productData Hobj) in Hv.
    discriminate Hv.
Qed.

(** C2.  [createProduct] on the record [{ name: "AB", description:
    "aaaaaaaaaa", price: NaN, category: "x" }]: NaN is not a non-negative
    number, so the required fields are not well formed, and yet no error is
    thrown: the record is inserted with price NaN and both timestamps. *)
Theorem createProduct_inserts_NaN_price :
  let productData := record "AB" (letters 10) nan "x" in
  nonNegativeNumber (get productData "price") = false
  /\ wellFormed productData = false
  /\ isValid (validateProductData productData) = false
  /\ thrown (createProduct productData) = None
  /\ inserts (createProduct productData)
       [ ("name", VString "AB"); ("description", VString (letters 10));
         ("price", VNumber nan); ("category", VString "x");
         ("createdAt", serverTimestamp); ("updatedAt", serverTimestamp) ].
Proof.
  repeat apply conj; try reflexivity.
  eexists. split; [reflexivity|]. split; reflexivity.
Qed.

(** C3.  For a product identifier and product data that pass the tests,
    [updateProduct] performs one call, [updateDoc] on the document of that
    identifier, whose payload has exactly the keys name, description, price,
    category and updatedAt: the four fields of the input (text trimmed) and a
    fresh server timestamp.  The payload has no [createdAt] and no [id] key,
    so the stored [createdAt] is kept. *)
Theorem updateProduct_keeps_createdAt (productId productData : value) :
  isIdentifier productId = true ->
  accepted productData = true ->
  exists data,
    updates (updateProduct productId productData) (stringOf productId) data
    /\ data = writtenFields productData ++ [("updatedAt", serverTimestamp)]
    /\ map fst data = ["name"; "description"; "price"; "category"; "updatedAt"]
    /\ assoc "createdAt" data = None
    /\ assoc "id" data = None
    /\ (forall answer,
           (run answer (updateProduct productId productData)).1
           = [ev (updateDoc (doc COLLECTION_NAME (stringOf productId)) data)])
    /\ (forall document : gmap string value,
           updateFields data document !! "createdAt" = document !! "createdAt").
Proof.
  intros Hid Hacc.
  pose proof (updateProduct_cases productId productData) as H.
  rewrite Hid, (proj2 (firstError_accepted productData) Hacc) in H. cbn [negb] in H.
  eexists. split; [exact H|]. repeat apply conj; try reflexivity.
  - intros answer. rewrite (updates_run _ _ _ answer H). reflexivity.
  - intros document. unfold updateFields, writtenFields. simpl.
    rewrite !lookup_insert_ne by discriminate. reflexivity.
Qed.

Lemma updateProduct_keeps_createdAt_witness :
  exists data,
    updates (updateProduct (VString "p1") (record " AB " (letters 10) 5 "x"))
      "p1" data
    /\ assoc "createdAt" data = None.
Proof.
  destruct (updateProduct_keeps_createdAt (VString "p1")
              (record " AB " (letters 10) 5 "x") eq_refl eq_refl)
    as (data & Hu & _ & _ & Hc & _).
  exists data. split; [exact Hu | exact Hc].
Defined.

(** C6.  For every product identifier [deleteProduct] performs one call,
    [deleteDoc] on the document of that identifier, with no read of the
    store before it; it returns when the call succeeds and throws the error
    of the store exactly when the call fails. *)
Theorem deleteProduct_unconditional (productId : value) :
  isIdentifier productId = true ->
  deletes (deleteProduct productId) (stringOf productId)
  /\ thrown (deleteProduct productId) = None
  /\ forall answer : (forall R, sdk R -> R),
       run answer (deleteProduct productId)
       = ([ev (deleteDoc (doc COLLECTION_NAME (stringOf productId)))],
          match answer _ (deleteDoc (doc COLLECTION_NAME (stringOf productId))) with
          | Fulfilled _ => Fulfilled tt
          | Rejected e => Rejected e
          end).
Proof.
  intros Hid. pose proof (deleteProduct_cases productId) as H.
  rewrite Hid in H. split; [exact H|]. split.
  - destruct H as (k & -> & _). reflexivity.
  - intros answer. apply deletes_run. exact H.
Qed.

Lemma deleteProduct_unconditional_witness :
  deletes (deleteProduct (VString "no-such-id")) "no-such-id".
Proof.
  exact (proj1 (deleteProduct_unconditional (VString "no-such-id") eq_refl)).
Defined.

(** C10.  [createProduct] and [updateProduct] (given a product identifier)
    apply the same tests to the product data: one throws before calling the
    store exactly when the other does, with the same error, and when they
    accept they write the same name, description, price and category. *)
Theorem createProduct_updateProduct_same_tests (productId productData : value) :
  isIdentifier productId = true ->
  thrown (createProduct productData)
  = thrown (updateProduct productId productData)
  /\ (forall e, createProduct productData = throw e
                <-> updateProduct productId productData = throw e)
  /\ (thrown (createProduct productData) = None ->
      inserts (createProduct productData)
        (writtenFields productData
         ++ [("createdAt", serverTimestamp); ("updatedAt", serverTimestamp)])
      /\ updates (updateProduct productId productData) (stringOf productId)
           (writtenFields productData ++ [("updatedAt", serverTimestamp)])).
Proof.
  intros Hid.
  pose proof (createProduct_cases productData) as Hc.
  pose proof (updateProduct_cases productId productData) as Hu.
  rewrite Hid in Hu. cbn [negb] in Hu.
  destruct (firstError productData) as [e0|].
  - rewrite Hc, Hu. split; [reflexivity|]. split.
    + intros e. unfold throw. split; intros H; injection H as ->; reflexivity.
    + intros H. discriminate H.
  - destruct Hc as (kc & Ec & Hc1 & Hc2). destruct Hu as (ku & Eu & Hu1 & Hu2).
    rewrite Ec, Eu. split; [reflexivity|]. split.
    + intros e. unfold throw. split; discriminate.
    + intros _. split; eexists; (split; [reflexivity|]); split; assumption.
Qed.

Lemma createProduct_updateProduct_same_tests_witness :
  thrown (createProduct (record "  " (letters 10) 5 "x"))
  = thrown (updateProduct (VString "p1") (record "  " (letters 10) 5 "x")).
Proof.
  exact (proj1 (createProduct_updateProduct_same_tests (VString "p1")
                  (record "  " (letters 10) 5 "x") eq_refl)).
Defined.

(* ================================================================== *)
(** ** searchProducts *)

Lemma sublist_List_filter {A} (f : A -> bool) (l : list A) :
  sublist (List.filter f l) l.
Proof.
  induction l as [|x l IH]; simpl; [constructor|].
  destruct (f x); constructor; exact IH.
Qed.

(** The test of the filter, read as a proposition. *)
Lemma searchProducts_test (q : string) (p : product) :
  includes (toLowerCase (product_name p)) q
  || includes (toLowerCase (product_description p)) q
  || includes (toLowerCase (product_category p)) q = true
  <-> substring_of q (toLowerCase (product_name p))
      \/ substring_of q (toLowerCase (product_description p))
      \/ substring_of q (toLowerCase (product_category p)).
Proof. rewrite !orb_true_iff, !includes_substring. tauto. Qed.

(** C7, as the code has it.  With an empty search text [searchProducts]
    returns the list unchanged.  With any text it keeps, in their order, the
    records of which the lower-cased name, description or category contains
    the lower-cased text with its surrounding white space stripped, and only
    those; so a text that matches no record gives the empty list. *)
Theorem searchProducts_keeps_matches (text : string) (products : list product) :
  searchProducts (VString "") products = products
  /\ sublist (searchProducts (VString text) products) products
  /\ (forall p,
         In p (searchProducts (VString text) products)
         <-> In p products
             /\ (substring_of (trim (toLowerCase text)) (toLowerCase (product_name p))
                 \/ substring_of (trim (toLowerCase text))
                      (toLowerCase (product_description p))
                 \/ substring_of (trim (toLowerCase text))
                      (toLowerCase (product_category p))))
  /\ ((forall p, In p products ->
          ~ (substring_of (trim (toLowerCase text)) (toLowerCase (product_name p))
             \/ substring_of (trim (toLowerCase text))
                  (toLowerCase (product_description p))
             \/ substring_of (trim (toLowerCase text))
                  (toLowerCase (product_category p)))) ->
      searchProducts (VString text) products = []).
Proof.
  split; [reflexivity|].
  unfold searchProducts. cbn [truthy typeof stringOf].
  change ("string" =? "string")%string with true. cbn [negb].
  rewrite orb_false_r, negb_involutive.
  destruct (String.eqb_spec text "") as [->|Hne].
  - split; [reflexivity|]. split.
    + intros p. split; [|tauto]. intros Hp. split; [exact Hp|].
      left. exists "", (toLowerCase (product_name p)). reflexivity.
    + intros Hnone. destruct products as [|p l]; [reflexivity|].
      destruct (Hnone p (or_introl eq_refl)).
      left. exists "", (toLowerCase (product_name p)). reflexivity.
  - split; [apply sublist_List_filter|]. split.
    + intros p. rewrite filter_In, searchProducts_test. reflexivity.
    + intros Hnone. apply filter_none. intros p Hp.
      apply not_true_is_false. rewrite searchProducts_test. apply Hnone, Hp.
Qed.

(** C7, as stated, fails: the text " lamp " is kept by no field of the
    record as a substring, with or without case, and the record is retained
    all the same, because the text is trimmed before it is matched. *)
Lemma searchProducts_trims_the_text :
  let p := sampleProduct "p1" 10 "Home" in
  searchProducts (VString " lamp ") [p] = [p]
  /\ ~ (caseInsensitiveSubstring " lamp " (product_name p)
        \/ caseInsensitiveSubstring " lamp " (product_description p)
        \/ caseInsensitiveSubstring " lamp " (product_category p)).
Proof.
  split; [reflexivity|].
  unfold caseInsensitiveSubstring. rewrite <- !includes_substring.
  intros [H | [H | H]]; vm_compute in H; discriminate H.
Qed.

(** C9.  A non-empty search text made of white space only gives the whole
    list, in its order, as the empty text does: lower-cased and trimmed it is
    the empty string, which every field contains. *)
Theorem searchProducts_blank_text (text : string) (products : list product) :
  text <> "" ->
  onlyWhiteSpace text = true ->
  trim (toLowerCase text) = ""
  /\ searchProducts (VString text) products = products
  /\ searchProducts (VString text) products
     = searchProducts (VString "") products.
Proof.
  intros Hne Hws.
  assert (Hq : trim (toLowerCase text) = "").
  { rewrite (toLowerCase_onlyWhiteSpace text Hws). apply trim_onlyWhiteSpace, Hws. }
  assert (Hall : searchProducts (VString text) products = products).
  { unfold searchProducts. cbn [truthy typeof stringOf].
    change ("string" =? "string")%string with true.
    apply String.eqb_neq in Hne. rewrite Hne. cbn [negb orb].
    rewrite Hq. apply filter_all. intros p _.
    rewrite includes_empty. reflexivity. }
  split; [exact Hq|]. split; [exact Hall|]. rewrite Hall. reflexivity.
Qed.

Lemma searchProducts_blank_text_witness :
  searchProducts (VString "   ")
    [sampleProduct "p1" 10 "Home"; sampleProduct "p2" 20 "Office"]
  = [sampleProduct "p1" 10 "Home"; sampleProduct "p2" 20 "Office"].
Proof.
  refine (proj1 (proj2 (searchProducts_blank_text "   " _ _ eq_refl))).
  discriminate.
Defined.

(* ================================================================== *)
(** ** getProductStats *)

Lemma statsLoop_fold (products : list product) (tp tv : float)
    (cats : gmap string counter) :
  fold_left
    (fun '(totalPrice, totalValue, categories) product =>
       ((totalPrice + product_price product)%float,
        (totalValue + product_price product)%float,
        countCategory categories (product_category product)))
    products (tp, tv, cats)
  = (fold_left (fun acc p => (acc + product_price p)%float) products tp,
     fold_left (fun acc p => (acc + product_price p)%float) products tv,
     fold_left countCategory (map product_category products) cats).
Proof.
  revert tp tv cats. induction products as [|p l IH]; intros tp tv cats;
    [reflexivity|]. simpl. apply IH.
Qed.

Lemma inheritedKey_proto (k : string) :
  inheritedKey k = false -> String.eqb k "__proto__" = false.
Proof.
  unfold inheritedKey, objectPrototypeKeys. cbn [existsb].
  destruct (String.eqb k "__proto__"); [|reflexivity].
  rewrite !orb_true_r. discriminate.
Qed.

Lemma countCategory_counting (cats : gmap string counter) (k : string) :
  inheritedKey k = false ->
  counting cats ->
  counting (countCategory cats k)
  /\ forall c, held (countCategory cats k) c
               = held cats c + (if String.eqb c k then 1 else 0).
Proof.
  intros Hk Hc. unfold countCategory, setCategory.
  rewrite Hk, (inheritedKey_proto k Hk).
  destruct (cats !! k) as [x|] eqn:Hx.
  - destruct (Hc k x Hx) as (n & -> & Hn). cbn [counterTruthy counterIncrement].
    replace (n =? 0) with false by (symmetry; apply Nat.eqb_neq; lia).
    cbn [negb]. split.
    + intros c y. destruct (decide (c = k)) as [->|Hne].
      * rewrite lookup_insert_eq. intros [= <-]. exists (n + 1). split; [reflexivity|lia].
      * rewrite lookup_insert_ne by congruence. apply Hc.
    + intros c. unfold held. destruct (String.eqb_spec c k) as [->|Hne].
      * rewrite lookup_insert_eq, Hx. reflexivity.
      * rewrite lookup_insert_ne by congruence. lia.
  - split.
    + intros c y. destruct (decide (c = k)) as [->|Hne].
      * rewrite lookup_insert_eq. intros [= <-]. exists 1. split; [reflexivity|lia].
      * rewrite lookup_insert_ne by congruence. apply Hc.
    + intros c. unfold held. destruct (String.eqb_spec c k) as [->|Hne].
      * rewrite lookup_insert_eq, Hx. reflexivity.
      * rewrite lookup_insert_ne by congruence. lia.
Qed.

Lemma countCategory_fold (keys : list string) (cats : gmap string counter) :
  Forall (fun k => inheritedKey k = false) keys ->
  counting cats ->
  counting (fold_left countCategory keys cats)
  /\ forall c, held (fold_left countCategory keys cats) c
               = held cats c
                 + List.length (List.filter (fun k => String.eqb k c) keys).
Proof.
  revert cats. induction keys as [|k keys IH]; intros cats Hk Hc; simpl.
  - split; [exact Hc | intros c; lia].
  - inversion Hk as [|? ? Hk1 Hk2]; subst.
    destruct (countCategory_counting cats k Hk1 Hc) as [Hc' Hh].
    destruct (IH _ Hk2 Hc') as [Hc'' Hh'']. split; [exact Hc''|].
    intros c. rewrite Hh'', Hh, (String.eqb_sym c k).
    destruct (String.eqb k c); simpl; lia.
Qed.

Lemma held_lookup (cats : gmap string counter) (c : string) :
  counting cats ->
  cats !! c = if held cats c =? 0 then None else Some (Count (held cats c)).
Proof.
  intros Hc. unfold held. destruct (cats !! c) as [x|] eqn:Hx; [|reflexivity].
  destruct (Hc c x Hx) as (n & -> & Hn).
  replace (n =? 0) with false by (symmetry; apply Nat.eqb_neq; lia). reflexivity.
Qed.

Lemma countOf_keys (c : string) (products : list product) :
  List.length (List.filter (fun k => String.eqb k c) (map product_category products))
  = countOf c products.
Proof.
  unfold countOf. induction products as [|p l IH]; [reflexivity|]. simpl.
  destruct (String.eqb (product_category p) c); simpl; rewrite IH; reflexivity.
Qed.

(** What [getProductStats] computes when no category is the name of a
    property of [Object.prototype]: the number of records, the sum of the
    prices, their mean, and for each category the number of its records.
    On the empty list, and on a value that is no array, all is zero and
    empty; the three records priced 10, 20, 30 in categories A, A, B give
    total 3, mean 20, sum 60 and the counts A: 2, B: 1. *)
Theorem getProductStats_counts :
  (forall products : list product,
      Forall (fun p => inheritedKey (product_category p) = false) products ->
      let s := getProductStats (ArrayOf products) in
      total s = List.length products
      /\ totalValue s = sumPrices products
      /\ averagePrice s
         = (if List.length products =? 0 then 0%float
            else (sumPrices products / numberOfNat (List.length products))%float)
      /\ forall c, categories s !! c
                   = if countOf c products =? 0 then None
                     else Some (Count (countOf c products)))
  /\ getProductStats (ArrayOf [])
     = {| total := 0; averagePrice := 0; categories := ∅; totalValue := 0 |}
  /\ (forall v, getProductStats (NotArray v)
                = {| total := 0; averagePrice := 0; categories := ∅;
                     totalValue := 0 |})
  /\ getProductStats
       (ArrayOf [ sampleProduct "p1" 10 "A"; sampleProduct "p2" 20 "A";
                  sampleProduct "p3" 30 "B" ])
     = {| total := 3; averagePrice := 20;
          categories := {[ "A" := Count 2; "B" := Count 1 ]};
          totalValue := 60 |}.
Proof.
  split; [|repeat apply conj; try reflexivity].
  - intros products Hk s. subst s. unfold getProductStats, statsLoop.
    cbn [Array_isArray negb]. rewrite statsLoop_fold.
    destruct products as [|p l] eqn:Hl; [repeat split; reflexivity|].
    rewrite <- Hl in *. replace (List.length products =? 0) with false
      by (rewrite Hl; reflexivity).
    cbn [total totalValue averagePrice categories].
    repeat split.
    intros c.
    destruct (countCategory_fold (map product_category products) ∅) as [Hc Hh].
    { apply Forall_map. exact Hk. }
    { intros k x Hx. rewrite lookup_empty in Hx. discriminate. }
    rewrite (held_lookup _ c Hc), Hh, countOf_keys.
    unfold held. rewrite lookup_empty. reflexivity.
Qed.

(** C8.  [getProductStats] on one record of the category "constructor":
    the count map should hold 1 for that category and holds NaN, because the
    counter is looked up on an object literal, which inherits a property of
    that name. *)
Theorem getProductStats_inherited_category :
  let s := getProductStats (ArrayOf [sampleProduct "p1" 10 "constructor"]) in
  countOf "constructor" [sampleProduct "p1" 10 "constructor"] = 1
  /\ total s = 1
  /\ categories s !! "constructor" = Some CountNaN
  /\ categories s !! "constructor" <> Some (Count 1).
Proof. vm_compute. repeat split. discriminate. Qed.

(* ================================================================== *)
(** ** The controller: form submission *)

Ltac exec_step H :=
  let r := fresh "r" in
  let tr := fresh "tr" in
  unfold showToast, showFieldError, call, mret, prog_ret, mbind, prog_bind in H;
  cbn [bind] in H;
  lazymatch type of H with
  | exec (Ret _) _ _ => destruct H as [-> H]; try subst
  | exec (Vis _ _) _ _ => destruct H as (r & tr & -> & H)
  end.

Lemma exec_annotate (m : string) tr u :
  exec (if includes (toLowerCase m) "nombre" then showFieldError "name" m
        else if includes (toLowerCase m) ("descripci" +:+ o_acute +:+ "n")
             then showFieldError "description" m
        else if includes (toLowerCase m) "precio" then showFieldError "price" m
        else if includes (toLowerCase m) ("categor" +:+ i_acute +:+ "a")
             then showFieldError "category" m
        else Ret tt) tr u ->
  shownFieldErrors tr = annotation m
  /\ List.filter isAdapterCall tr = []
  /\ timerDelays tr = [].
Proof.
  unfold annotation, fieldOfError. intros H.
  destruct (includes (toLowerCase m) "nombre");
    [|destruct (includes (toLowerCase m) ("descripci" +:+ o_acute +:+ "n"));
      [|destruct (includes (toLowerCase m) "precio");
        [|destruct (includes (toLowerCase m) ("categor" +:+ i_acute +:+ "a"))]]];
    exec_step H; try exec_step H; repeat split.
Qed.

Lemma exec_showValidationErrors (errors : list string) tr u :
  exec (showValidationErrors errors) tr u ->
  shownFieldErrors tr = flat_map annotation errors
  /\ List.filter isAdapterCall tr = []
  /\ timerDelays tr = []
  /\ exists shown,
       tr = shown
            ++ [ev (ShowToast "Por favor corrige los errores en el formulario"
                      "error")].
Proof.
  unfold showValidationErrors. intros H.
  apply exec_bind in H as (tr1 & [] & tr2 & H1 & H2 & ->).
  exec_step H2. exec_step H2.
  assert (Hf : shownFieldErrors tr1 = flat_map annotation errors
               /\ List.filter isAdapterCall tr1 = []
               /\ timerDelays tr1 = []).
  { clear r. revert tr1 H1. induction errors as [|m l IH]; intros tr1 H1.
    - destruct H1 as [-> _]. repeat split.
    - cbn [forEach] in H1.
      apply exec_bind in H1 as (ta & [] & tb & Ha & Hb & ->).
      destruct (IH _ Hb) as (IH1 & IH2 & IH3).
      destruct (exec_annotate _ _ _ Ha) as (A1 & A2 & A3).
      unfold shownFieldErrors, timerDelays in *.
      rewrite omap_app, List.filter_app, omap_app, IH1, IH2, IH3, A1, A2, A3.
      repeat split. }
  destruct Hf as (Hf1 & Hf2 & Hf3).
  unfold shownFieldErrors, timerDelays in *.
  rewrite omap_app, List.filter_app, omap_app, Hf1, Hf2, Hf3.
  repeat split; [apply app_nil_r|]. eexists. reflexivity.
Qed.

Lemma in_annotations (field m : string) (errors : list string) :
  In (field, m) (flat_map annotation errors)
  <-> In m errors /\ fieldOfError m = Some field.
Proof.
  rewrite in_flat_map. unfold annotation. split.
  - intros (m' & Hm' & Hin). destruct (fieldOfError m') as [f'|] eqn:Hf; [|destruct Hin].
    destruct Hin as [[= <- <-] | []]. split; assumption.
  - intros [Hm Hf]. exists m. rewrite Hf. split; [exact Hm | left; reflexivity].
Qed.

Section Submission.

Variable parseFloat : string -> float.

(** C4.  When [validateProductData] reports the data of the form invalid,
    [handleFormSubmit] calls neither [createProduct] nor [updateProduct],
    whether the form is creating or editing and whatever the calls it makes
    answer: it shows every message of the validation on its field (a field is
    annotated exactly when it breaks its rule), shows the notice asking to
    correct the form, restores the submit button and leaves the state of the
    controller as it was. *)
Theorem handleFormSubmit_invalid_calls_no_adapter
    (f : form) (st : app_state) (tr : list (event ui)) (st' : app_state) :
  isValid (validateProductData (getFormData parseFloat f)) = false ->
  exec (handleFormSubmit parseFloat f st) tr st' ->
  let formData := getFormData parseFloat f in
  st' = st
  /\ List.filter isAdapterCall tr = []
  /\ shownFieldErrors tr
     = flat_map annotation (errors (validateProductData formData))
  /\ (nameRule (get formData "name") = false
      <-> exists m, In ("name", m) (shownFieldErrors tr))
  /\ (descriptionRule (get formData "description") = false
      <-> exists m, In ("description", m) (shownFieldErrors tr))
  /\ (priceRule (get formData "price") = false
      <-> exists m, In ("price", m) (shownFieldErrors tr))
  /\ (categoryRule (get formData "category") = false
      <-> exists m, In ("category", m) (shownFieldErrors tr))
  /\ exists shown,
       tr = ev PreventDefault
            :: shown
            ++ [ ev (ShowToast "Por favor corrige los errores en el formulario"
                       "error");
                 ev (SetSubmitButtonLoading false (isEditing st)) ].
Proof.
  intros Hinvalid H formData. subst formData.
  unfold handleFormSubmit in H. cbv zeta in H.
  set (formData := getFormData parseFloat f) in *.
  destruct (validateProductData_rules formData eq_refl)
    as (_ & _ & Hn & Hd & Hp & Hc).
  rewrite Hinvalid in H. cbn [negb] in H.
  exec_step H.
  apply exec_bind in H as (tr1 & st1 & tr2 & H1 & H2 & ->).
  apply exec_bind in H1 as (ta & [] & tb & Ha & Hb & ->).
  exec_step Hb. exec_step H2. exec_step H2.
  destruct (exec_showValidationErrors _ _ _ Ha) as (S1 & S2 & S3 & shown & ->).
  assert (Hshown : shownFieldErrors
                     (ev PreventDefault
                      :: ((shown ++ [ev (ShowToast
                            "Por favor corrige los errores en el formulario"
                            "error")]) ++ [])
                      ++ [ev (SetSubmitButtonLoading false (isEditing st))])
                   = flat_map annotation (errors (validateProductData formData))).
  { rewrite <- S1. unfold shownFieldErrors. cbn [omap list_omap shownFieldError ev projT2].
    rewrite !omap_app. cbn. rewrite !app_nil_r. reflexivity. }
  rewrite Hshown.
  split; [reflexivity|]. split.
  { rewrite app_nil_r. cbn [List.filter isAdapterCall ev projT2].
    rewrite List.filter_app, S2. reflexivity. }
  split; [reflexivity|].
  split; [|split; [|split; [|split]]].
  - rewrite Hn. split; intros (m & Hm); exists m; apply in_annotations; tauto.
  - rewrite Hd. split; intros (m & Hm); exists m; apply in_annotations; tauto.
  - rewrite Hp. split; intros (m & Hm); exists m; apply in_annotations; tauto.
  - rewrite Hc. split; intros (m & Hm); exists m; apply in_annotations; tauto.
  - exists shown. rewrite app_nil_r, <- app_assoc. reflexivity.
Qed.

End Submission.

Lemma handleFormSubmit_invalid_calls_no_adapter_witness :
  let f := {| nameInput := "A"; descriptionInput := "short";
              priceInput := ""; categorySelect := "" |} in
  let st := set_editing true (VString "p1") initialState in
  List.filter isAdapterCall
    (run failing (handleFormSubmit parseFloatSample f st)).1 = [].
Proof.
  intros f st.
  refine (proj1 (proj2 (handleFormSubmit_invalid_calls_no_adapter
                          parseFloatSample f st _ _ eq_refl
                          (exec_run failing _)))).
Defined.

(* ================================================================== *)
(** ** The controller: reconnection *)

Lemma runInputs_handles (answer : forall R, ui R -> R) (ins : list input) :
  forall st n tr st' n',
    runInputs answer st n ins = Some (tr, st', n') ->
    handles st n ins tr st' n'.
Proof.
  induction ins as [|i ins IH]; intros st n tr st' n'; simpl.
  - intros [= <- <- <-]. constructor.
  - destruct (isTimerFired i && (n =? 0)) eqn:Hen; [discriminate|].
    pose proof (exec_run answer (handle i st)) as Hex.
    destruct (run answer (handle i st)) as [tr1 st1]. simpl in Hex.
    destruct (runInputs answer st1 _ ins) as [[[tr2 st2] n2]|] eqn:Hrest;
      [|discriminate].
    intros [= <- <- <-]. econstructor; [|exact Hex|apply IH, Hrest].
    intros ->. simpl in Hen. apply Nat.eqb_neq in Hen. lia.
Qed.

Lemma runSession_session (answer : forall R, ui R -> R) (ins : list input)
    tr st n :
  runSession answer ins = Some (tr, st, n) -> session ins tr st n.
Proof.
  unfold runSession, session.
  pose proof (exec_run answer (startRealTimeListener initialState)) as Hex.
  destruct (run answer (startRealTimeListener initialState)) as [tr0 st0].
  destruct (runInputs answer st0 0 ins) as [[[tr1 st1] n1]|] eqn:Hrest;
    [|discriminate].
  intros [= <- <- <-]. exists tr0, st0, tr1.
  split; [exact Hex|]. split; [apply runInputs_handles with answer, Hrest|reflexivity].
Qed.

Lemma exec_attemptReconnect (st : app_state) tr st' :
  exec (attemptReconnect st) tr st' ->
  if reconnectAttempts st <? MAX_RECONNECT_ATTEMPTS
  then tr = [retryNotice (reconnectAttempts st + 1); ev (SetTimeout 2000)]
       /\ st' = set_reconnectAttempts (reconnectAttempts st + 1) st
  else tr = [finalNotice] /\ st' = st.
Proof.
  unfold attemptReconnect. intros H.
  destruct (reconnectAttempts st <? MAX_RECONNECT_ATTEMPTS);
    repeat exec_step H; split; reflexivity.
Qed.

Lemma exec_startRealTimeListener (st : app_state) tr st' :
  exec (startRealTimeListener st) tr st' ->
  timerDelays tr = []
  /\ reconnectAttempts st' = reconnectAttempts st
  /\ exists rest, tr = ev GetAllProducts :: rest.
Proof.
  unfold startRealTimeListener. intros H. exec_step H.
  destruct r as [unsubscribe|e]; repeat exec_step H;
    repeat split; eexists; reflexivity.
Qed.

Lemma exec_reconnectTimer (st : app_state) tr st' :
  exec (reconnectTimer st) tr st' ->
  timerDelays tr = []
  /\ reconnectAttempts st' = reconnectAttempts st
  /\ exists rest,
       tr = match unsubscribeProducts st with
            | Some unsubscribe => [ev (Unsubscribe unsubscribe)]
            | None => []
            end ++ ev GetAllProducts :: rest.
Proof.
  unfold reconnectTimer. intros H.
  apply exec_bind in H as (tr1 & [] & tr2 & H1 & H2 & ->).
  destruct (exec_startRealTimeListener _ _ _ H2) as (Ht & Ha & rest & ->).
  destruct (unsubscribeProducts st) as [unsubscribe|];
    repeat exec_step H1; (split; [exact Ht|]); (split; [exact Ha|]);
    exists rest; reflexivity.
Qed.

Lemma exec_onProducts_unavailable (e : error) (st : app_state) tr st' :
  code e = Some "unavailable" ->
  exec (handle (Failed e) st) tr st' ->
  if reconnectAttempts st <? MAX_RECONNECT_ATTEMPTS
  then timerDelays tr = [2000]
       /\ reconnectAttempts st' = reconnectAttempts st + 1
       /\ In (retryNotice (reconnectAttempts st + 1)) tr
  else timerDelays tr = []
       /\ reconnectAttempts st' = reconnectAttempts st
       /\ In finalNotice tr.
Proof.
  intros Hcode H. cbn [handle] in H. unfold onProducts in H. rewrite Hcode in H.
  destruct (decide (Some "unavailable" = Some "permission-denied")) as [E|_];
    [discriminate E|].
  destruct (decide (Some "unavailable" = Some "unavailable")) as [_|N];
    [|destruct N; reflexivity].
  apply exec_bind in H as (tr1 & st1 & tr2 & H1 & H2 & ->).
  apply exec_bind in H1 as (ta & [] & tb & Ha & Hb & ->).
  apply exec_attemptReconnect in Hb.
  repeat exec_step Ha. repeat exec_step H2.
  destruct (reconnectAttempts st <? MAX_RECONNECT_ATTEMPTS);
    destruct Hb as [-> ->]; repeat split; simpl; auto.
Qed.

(** Handling one input sets at most one timer, of 2000 ms, and only below
    the limit; the number of attempts grows by the number of timers set. *)
Lemma exec_handle (i : input) (st : app_state) tr st' :
  exec (handle i st) tr st' ->
  exists d,
    timerDelays tr = repeat 2000 d
    /\ reconnectAttempts st' = reconnectAttempts st + d
    /\ (d = 0 \/ (d = 1 /\ reconnectAttempts st < MAX_RECONNECT_ATTEMPTS))
    /\ (isTimerFired i = true -> d = 0).
Proof.
  destruct i as [products|e|]; cbn [handle]; intros H.
  - unfold onProducts in H. repeat exec_step H. exists 0. repeat split; auto.
  - destruct (decide (code e = Some "unavailable")) as [Hc|Hc].
    + apply (exec_onProducts_unavailable e st tr st' Hc) in H.
      destruct (Nat.ltb_spec (reconnectAttempts st) MAX_RECONNECT_ATTEMPTS);
        destruct H as (Ht & Ha & _); [exists 1|exists 0];
        rewrite Ht, Ha; repeat split; auto; discriminate.
    + unfold onProducts in H.
      destruct (decide (code e = Some "permission-denied")) as [Hp|Hp];
        [|destruct (decide (code e = Some "unavailable")) as [Hu|_];
          [destruct (Hc Hu)|]];
        repeat exec_step H; exists 0; repeat split; auto; discriminate.
  - apply exec_reconnectTimer in H as (Ht & Ha & _). exists 0.
    rewrite Ht, Ha. repeat split; auto.
Qed.

Lemma handles_bounded st n ins tr st' n' :
  handles st n ins tr st' n' ->
  reconnectAttempts st <= MAX_RECONNECT_ATTEMPTS ->
  reconnectAttempts st <= reconnectAttempts st'
  /\ reconnectAttempts st' <= MAX_RECONNECT_ATTEMPTS
  /\ timerDelays tr = repeat 2000 (reconnectAttempts st' - reconnectAttempts st)
  /\ n' + fired ins = n + (reconnectAttempts st' - reconnectAttempts st).
Proof.
  induction 1 as [st n|st n i ins tr st1 tr' st' n' Hen Hex Hrest IH]; intros Hle.
  - rewrite Nat.sub_diag. repeat split; lia.
  - destruct (exec_handle _ _ _ _ Hex) as (d & Ht & Ha & Hd & Hf).
    destruct IH as (I1 & I2 & I3 & I4); [lia|].
    unfold timerDelays in *. rewrite omap_app, Ht, I3, <- repeat_app.
    rewrite Ht, repeat_length in I4. unfold fired in *. cbn [List.filter].
    repeat split; try lia.
    + f_equal. lia.
    + destruct (isTimerFired i) eqn:Hi; cbn [List.length].
      * rewrite (Hf eq_refl) in *. destruct i; try discriminate.
        specialize (Hen eq_refl). lia.
      * lia.
Qed.

Lemma handles_final st n ins tr st' n' :
  handles st n ins tr st' n' ->
  reconnectAttempts st = MAX_RECONNECT_ATTEMPTS ->
  forall e, In (Failed e) ins -> code e = Some "unavailable" -> In finalNotice tr.
Proof.
  induction 1 as [st n|st n i ins tr st1 tr' st' n' Hen Hex Hrest IH];
    intros Hmax e Hin Hcode; [destruct Hin|].
  apply in_app_iff. destruct Hin as [-> | Hin].
  - left. apply (exec_onProducts_unavailable e st tr st1 Hcode) in Hex.
    rewrite Hmax, Nat.ltb_irrefl in Hex. apply Hex.
  - right. apply (IH) with e; [|exact Hin|exact Hcode].
    destruct (exec_handle _ _ _ _ Hex) as (d & _ & Ha & Hd & _). lia.
Qed.

Lemma execWith_runWith {E A} (answer : forall R, E R -> R) (p : prog E A) :
  execWith p (runWith answer p).1 (runWith answer p).2.
Proof.
  induction p as [a|R c k IH]; simpl; [split; reflexivity|].
  specialize (IH (answer R c)). destruct (runWith answer (k (answer R c))) as [atr a].
  exists (answer R c), atr. split; [reflexivity | exact IH].
Qed.

Lemma run_runWith {E A} (answer : forall R, E R -> R) (p : prog E A) :
  run answer p = (calls (runWith answer p).1, (runWith answer p).2).
Proof.
  induction p as [a|R c k IH]; simpl; [reflexivity|].
  rewrite (IH (answer R c)). destruct (runWith answer (k (answer R c))) as [atr a].
  reflexivity.
Qed.

Lemma execWith_exec {E A} (p : prog E A) atr a :
  execWith p atr a -> exec p (calls atr) a.
Proof.
  revert atr. induction p as [a'|R c k IH]; intros atr; simpl.
  - intros [-> ->]. split; reflexivity.
  - intros (r & atr' & -> & H). exists r, (calls atr').
    split; [reflexivity | apply IH, H].
Qed.

Lemma handlesWith_handles st n ins atr st' n' :
  handlesWith st n ins atr st' n' -> handles st n ins (calls atr) st' n'.
Proof.
  induction 1 as [st n|st n i ins atr st1 atr' st' n' Hen Hex Hrest IH].
  - constructor.
  - unfold calls. rewrite map_app. econstructor; [exact Hen| |exact IH].
    apply execWith_exec, Hex.
Qed.

Lemma sessionWith_session ins atr st n :
  sessionWith ins atr st n -> session ins (calls atr) st n.
Proof.
  intros (atr0 & st0 & atr1 & H0 & H1 & ->).
  exists (calls atr0), st0, (calls atr1).
  split; [apply execWith_exec, H0|]. split; [apply handlesWith_handles, H1|].
  apply map_app.
Qed.

Lemma exec_execWith {E A} (p : prog E A) tr a :
  exec p tr a -> exists atr, execWith p atr a /\ calls atr = tr.
Proof.
  revert tr. induction p as [a'|R c k IH]; intros tr; simpl.
  - intros [-> ->]. exists []. repeat split.
  - intros (r & tr' & -> & H). destruct (IH r _ H) as (atr' & H' & <-).
    exists (ans c r :: atr'). split; [|reflexivity].
    exists r, atr'. split; [reflexivity | exact H'].
Qed.

Lemma handles_handlesWith st n ins tr st' n' :
  handles st n ins tr st' n' ->
  exists atr, handlesWith st n ins atr st' n' /\ calls atr = tr.
Proof.
  induction 1 as [st n|st n i ins tr st1 tr' st' n' Hen Hex Hrest IH].
  - exists []. split; [constructor | reflexivity].
  - destruct (exec_execWith _ _ _ Hex) as (atr1 & H1 & <-).
    destruct IH as (atr2 & H2 & <-).
    exists (atr1 ++ atr2). split; [|apply map_app].
    econstructor; [exact Hen | exact H1 | exact H2].
Qed.

Lemma session_sessionWith ins tr st n :
  session ins tr st n ->
  exists atr, sessionWith ins atr st n /\ calls atr = tr.
Proof.
  intros (tr0 & st0 & tr1 & H0 & H1 & ->).
  destruct (exec_execWith _ _ _ H0) as (atr0 & H0' & <-).
  destruct (handles_handlesWith _ _ _ _ _ _ H1) as (atr1 & H1' & <-).
  exists (atr0 ++ atr1). split; [|apply map_app].
  exists atr0, st0, atr1. repeat split; assumption.
Qed.

Lemma runInputsWith_handlesWith (answer : forall R, ui R -> R) (ins : list input) :
  forall st n atr st' n',
    runInputsWith answer st n ins = Some (atr, st', n') ->
    handlesWith st n ins atr st' n'.
Proof.
  induction ins as [|i ins IH]; intros st n atr st' n'; simpl.
  - intros [= <- <- <-]. constructor.
  - destruct (isTimerFired i && (n =? 0)) eqn:Hen; [discriminate|].
    pose proof (execWith_runWith answer (handle i st)) as Hex.
    destruct (runWith answer (handle i st)) as [atr1 st1]. simpl in Hex.
    destruct (runInputsWith answer st1 _ ins) as [[[atr2 st2] n2]|] eqn:Hrest;
      [|discriminate].
    intros [= <- <- <-]. econstructor; [|exact Hex|apply IH, Hrest].
    intros ->. simpl in Hen. apply Nat.eqb_neq in Hen. lia.
Qed.

Lemma runSessionWith_sessionWith (answer : forall R, ui R -> R) (ins : list input)
    atr st n :
  runSessionWith answer ins = Some (atr, st, n) -> sessionWith ins atr st n.
Proof.
  unfold runSessionWith, sessionWith.
  pose proof (execWith_runWith answer (startRealTimeListener initialState)) as Hex.
  destruct (runWith answer (startRealTimeListener initialState)) as [atr0 st0].
  destruct (runInputsWith answer st0 0 ins) as [[[atr1 st1] n1]|] eqn:Hrest;
    [|discriminate].
  intros [= <- <- <-]. exists atr0, st0, atr1.
  split; [exact Hex|].
  split; [apply runInputsWith_handlesWith with answer, Hrest|reflexivity].
Qed.

Lemma runInputs_runInputsWith (answer : forall R, ui R -> R) (ins : list input) :
  forall st n tr st' n',
    runInputs answer st n ins = Some (tr, st', n') ->
    exists atr, runInputsWith answer st n ins = Some (atr, st', n') /\ calls atr = tr.
Proof.
  induction ins as [|i ins IH]; intros st n tr st' n'; simpl.
  - intros [= <- <- <-]. exists []. split; reflexivity.
  - destruct (isTimerFired i && (n =? 0)); [discriminate|].
    rewrite (run_runWith answer (handle i st)).
    destruct (runWith answer (handle i st)) as [atr1 st1]. cbn [fst snd].
    destruct (runInputs answer st1 _ ins) as [[[tr2 st2] n2]|] eqn:Hrest;
      [|discriminate].
    intros [= <- <- <-]. destruct (IH _ _ _ _ _ Hrest) as (atr2 & -> & <-).
    exists (atr1 ++ atr2). split; [reflexivity | apply map_app].
Qed.

Lemma runSession_runSessionWith (answer : forall R, ui R -> R) (ins : list input)
    tr st n :
  runSession answer ins = Some (tr, st, n) ->
  exists atr, runSessionWith answer ins = Some (atr, st, n) /\ calls atr = tr.
Proof.
  unfold runSession, runSessionWith.
  rewrite (run_runWith answer (startRealTimeListener initialState)).
  destruct (runWith answer (startRealTimeListener initialState)) as [atr0 st0].
  cbn [fst snd].
  destruct (runInputs answer st0 0 ins) as [[[tr1 st1] n1]|] eqn:Hrest;
    [|discriminate].
  intros [= <- <- <-].
  destruct (runInputs_runInputsWith _ _ _ _ _ _ _ Hrest) as (atr1 & -> & <-).
  exists (atr0 ++ atr1). split; [reflexivity | apply map_app].
Qed.

Ltac execWith_step H :=
  let r := fresh "r" in
  let atr := fresh "atr" in
  unfold showToast, showFieldError, call, mret, prog_ret, mbind, prog_bind in H;
  cbn [bind] in H;
  lazymatch type of H with
  | execWith (Ret _) _ _ => destruct H as [-> H]; try subst
  | execWith (Vis _ _) _ _ => destruct H as (r & atr & -> & H)
  end.

Lemma heldAfter_app (held : option nat) (a b : list (answered ui)) :
  heldAfter held (a ++ b) = heldAfter (heldAfter held a) b.
Proof. apply fold_left_app. Qed.

Lemma cancelsBeforeReopening_app (a b : list (answered ui)) :
  forall held cancelled,
    cancelsBeforeReopening held cancelled a = true ->
    cancelsBeforeReopening (heldAfter held a) false b = true ->
    cancelsBeforeReopening held cancelled (a ++ b) = true.
Proof.
  induction a as [|e a IH]; intros held cancelled Ha Hb.
  - cbn [cancelsBeforeReopening] in Ha. apply negb_true_iff in Ha. subst cancelled.
    exact Hb.
  - cbn [app cancelsBeforeReopening heldAfter fold_left] in *.
    fold (heldAfter (match subscriptionCallOf e with
                     | Opens (Fulfilled h) => Some h
                     | _ => held
                     end) a) in Hb.
    destruct (subscriptionCallOf e) as [[h|err]|h|];
      repeat (apply andb_prop in Ha as [Ha ?]);
      repeat (apply andb_true_intro; split); try assumption;
      apply IH; assumption.
Qed.

(** Handling one input: the handle in the state is the one the last
    successful [getAllProducts] returned, and a timer cancels the handle in
    the state, if there is one, before it opens a subscription again. *)
Lemma execWith_handle_subscription (i : input) (st : app_state) atr st' :
  execWith (handle i st) atr st' ->
  cancelsBeforeReopening (unsubscribeProducts st) false atr = true
  /\ heldAfter (unsubscribeProducts st) atr = unsubscribeProducts st'.
Proof.
  destruct i as [products|e|]; cbn [handle]; intros H.
  - unfold onProducts in H. repeat execWith_step H. split; reflexivity.
  - unfold onProducts, attemptReconnect in H.
    destruct (decide (code e = Some "permission-denied")) as [Hp|Hp];
      [|destruct (decide (code e = Some "unavailable")) as [Hu|Hu];
        [destruct (reconnectAttempts st <? MAX_RECONNECT_ATTEMPTS)|]];
      repeat execWith_step H; split; reflexivity.
  - unfold reconnectTimer, startRealTimeListener in H.
    destruct (unsubscribeProducts st) as [h|] eqn:Hh; repeat execWith_step H;
      destruct r as [h'|e] || destruct r0 as [h'|e];
      repeat execWith_step H;
      cbn [cancelsBeforeReopening subscriptionCallOf ans heldAfter fold_left
           unsubscribeProducts set_unsubscribeProducts negb andb orb];
      rewrite ?Hh, ?Nat.eqb_refl; split; reflexivity.
Qed.

Lemma handlesWith_subscription st n ins atr st' n' :
  handlesWith st n ins atr st' n' ->
  cancelsBeforeReopening (unsubscribeProducts st) false atr = true
  /\ heldAfter (unsubscribeProducts st) atr = unsubscribeProducts st'.
Proof.
  induction 1 as [st n|st n i ins atr st1 atr' st' n' Hen Hex Hrest [IH1 IH2]].
  - split; reflexivity.
  - destruct (execWith_handle_subscription _ _ _ _ Hex) as [H1 H2].
    rewrite heldAfter_app, H2. split; [|exact IH2].
    apply cancelsBeforeReopening_app; [exact H1|]. rewrite H2. exact IH1.
Qed.

Lemma sessionWith_subscription ins atr st n :
  sessionWith ins atr st n ->
  unsubscribeProducts st = lastOpened atr
  /\ cancelsBeforeReopening None false atr = true.
Proof.
  intros (atr0 & st0 & atr1 & H0 & H1 & ->).
  destruct (handlesWith_subscription _ _ _ _ _ _ H1) as [C1 C2].
  assert (Hstart : cancelsBeforeReopening None false atr0 = true
                   /\ heldAfter None atr0 = unsubscribeProducts st0).
  { unfold startRealTimeListener in H0. execWith_step H0.
    destruct r as [h|e]; repeat execWith_step H0; split; reflexivity. }
  destruct Hstart as [S1 S2]. unfold lastOpened.
  rewrite heldAfter_app, S2, C2. split; [reflexivity|].
  apply cancelsBeforeReopening_app; [exact S1|]. rewrite S2. exact C1.
Qed.

(** C5.  In every session the controller sets at most
    [MAX_RECONNECT_ATTEMPTS] = 3 reconnect timers, each of 2000 ms and one
    for each counted attempt, and no more timers expire than were set.  An
    "unavailable" error of the subscription below the limit counts one more
    attempt, announces it and sets one timer of 2000 ms; when the timer
    expires the current subscription is cancelled first and a new one is
    opened.  Once the limit is reached every further "unavailable" error is
    answered by the final failure notice, no timer is ever set again and the
    count stays at the limit.  Every session has a record of the answers
    its calls got, and in each such record the state holds the handle that
    the last successful [getAllProducts] of the session returned, the only
    handle ever cancelled is that one, a cancellation is followed at once by
    [getAllProducts], and [getAllProducts] is never called again while a
    handle is held unless that handle has just been cancelled. *)
Theorem reconnect_attempts_bounded
    (ins : list input) (tr : list (event ui)) (st : app_state) (n : nat) :
  session ins tr st n ->
  reconnectAttempts st <= MAX_RECONNECT_ATTEMPTS
  /\ timerDelays tr = repeat 2000 (reconnectAttempts st)
  /\ fired ins + n = reconnectAttempts st
  /\ (forall e tr' st',
         code e = Some "unavailable" ->
         exec (handle (Failed e) st) tr' st' ->
         if reconnectAttempts st <? MAX_RECONNECT_ATTEMPTS
         then timerDelays tr' = [2000]
              /\ reconnectAttempts st' = reconnectAttempts st + 1
              /\ In (retryNotice (reconnectAttempts st + 1)) tr'
         else timerDelays tr' = []
              /\ reconnectAttempts st' = reconnectAttempts st
              /\ In finalNotice tr')
  /\ (forall tr' st',
         exec (handle TimerFired st) tr' st' ->
         timerDelays tr' = []
         /\ exists rest,
              tr' = match unsubscribeProducts st with
                    | Some unsubscribe => [ev (Unsubscribe unsubscribe)]
                    | None => []
                    end ++ ev GetAllProducts :: rest)
  /\ (reconnectAttempts st = MAX_RECONNECT_ATTEMPTS ->
      forall ins' tr' st' n',
        handles st n ins' tr' st' n' ->
        timerDelays tr' = []
        /\ reconnectAttempts st' = MAX_RECONNECT_ATTEMPTS
        /\ fired ins' <= n
        /\ forall e, In (Failed e) ins' -> code e = Some "unavailable" ->
                     In finalNotice tr')
  /\ (exists atr, sessionWith ins atr st n /\ calls atr = tr)
  /\ (forall atr,
         sessionWith ins atr st n ->
         calls atr = tr ->
         unsubscribeProducts st = lastOpened atr
         /\ cancelsBeforeReopening None false atr = true).
Proof.
  intros Hsession. split; [|split; [|split; [|split; [|split; [|split; [|split]]]]]];
    [| | | | | |exact (session_sessionWith _ _ _ _ Hsession)
     |intros atr Hatr _; exact (sessionWith_subscription _ _ _ _ Hatr)];
    revert Hsession;
    (intros (tr0 & st0 & tr1 & H0 & H1 & ->);
     destruct (exec_startRealTimeListener _ _ _ H0) as (T0 & A0 & _);
     cbn [initialState reconnectAttempts] in A0;
     destruct (handles_bounded _ _ _ _ _ _ H1) as (B1 & B2 & B3 & B4);
       [rewrite A0; unfold MAX_RECONNECT_ATTEMPTS; lia|];
     rewrite A0, Nat.sub_0_r in * ).
  - exact B2.
  - unfold timerDelays in *. rewrite omap_app, T0, B3. reflexivity.
  - lia.
  - intros e tr' st' Hc Hex. exact (exec_onProducts_unavailable e st tr' st' Hc Hex).
  - intros tr' st' Hex. apply exec_reconnectTimer in Hex as (Ht & _ & Hr).
    split; assumption.
  - intros Hmax ins' tr' st' n' H'.
    destruct (handles_bounded _ _ _ _ _ _ H') as (C1 & C2 & C3 & C4); [lia|].
    replace (reconnectAttempts st' - reconnectAttempts st) with 0 in * by lia.
    split; [exact C3|]. split; [lia|]. split; [lia|].
    exact (handles_final _ _ _ _ _ _ H' Hmax).
Qed.

Lemma reconnect_attempts_bounded_witness :
  let ins := [ Failed unavailable; TimerFired; Failed unavailable; TimerFired;
               Failed unavailable; TimerFired; Failed unavailable ] in
  exists tr st n,
    runSession failing ins = Some (tr, st, n)
    /\ reconnectAttempts st = 3
    /\ timerDelays tr = [2000; 2000; 2000]
    /\ fired ins + n = 3
    /\ exists atr,
         calls atr = tr
         /\ unsubscribeProducts st = lastOpened atr
         /\ cancelsBeforeReopening None false atr = true.
Proof.
  intros ins.
  destruct (runSession failing ins) as [[[tr st] n]|] eqn:Hrun;
    [|vm_compute in Hrun; discriminate Hrun].
  exists tr, st, n. split; [reflexivity|].
  destruct (reconnect_attempts_bounded ins tr st n
              (runSession_session failing ins tr st n Hrun))
    as (_ & Ht & Hf & _ & _ & _ & _ & Hsub).
  assert (Ha : reconnectAttempts st = 3).
  { vm_compute in Hrun. injection Hrun as _ <- _. reflexivity. }
  rewrite Ha in Ht, Hf.
  split; [exact Ha|]. split; [exact Ht|]. split; [exact Hf|].
  destruct (runSession_runSessionWith failing ins tr st n Hrun)
    as (atr & HrunW & Hcalls).
  exists atr. split; [exact Hcalls|].
  exact (Hsub atr (runSessionWith_sessionWith failing ins atr st n HrunW) Hcalls).
Defined.

(* ================================================================== *)
(** ** More on the helpers of crud-operations.js *)

Lemma filter_filter_comm {A} (f g : A -> bool) (l : list A) :
  List.filter f (List.filter g l) = List.filter g (List.filter f l).
Proof.
  induction l as [|x l IH]; [reflexivity|]. simpl.
  destruct (f x) eqn:Hf, (g x) eqn:Hg; simpl; rewrite ?Hf, ?Hg, IH; reflexivity.
Qed.

Lemma filter_filter_same {A} (f : A -> bool) (l : list A) :
  List.filter f (List.filter f l) = List.filter f l.
Proof.
  induction l as [|x l IH]; [reflexivity|]. simpl.
  destruct (f x) eqn:Hf; simpl; rewrite ?Hf, IH; reflexivity.
Qed.

Lemma toLowerCase_empty (s : string) : toLowerCase s = "" <-> s = "".
Proof. destruct s; simpl; split; congruence. Qed.

(** X1.  [filterProductsByCategory] with an empty category, or with any
    value that is no string (undefined, null, a boolean, a number, an
    object), returns the list unchanged; with a category it keeps,
    in their order, exactly the products whose category equals it when both
    are lower-cased. *)
Theorem filterProductsByCategory_keeps_category
    (category : string) (products : list product) :
  filterProductsByCategory (VString "") products = products
  /\ filterProductsByCategory VUndefined products = products
  /\ (forall v : value,
        String.eqb (typeof v) "string" = false ->
        filterProductsByCategory v products = products)
  /\ sublist (filterProductsByCategory (VString category) products) products
  /\ (category <> "" ->
      forall p,
        In p (filterProductsByCategory (VString category) products)
        <-> In p products
            /\ toLowerCase (product_category p) = toLowerCase category).
Proof.
  split; [reflexivity|]. split; [reflexivity|]. split.
  { intros v Hv. unfold filterProductsByCategory. rewrite Hv, orb_true_r.
    reflexivity. }
  unfold filterProductsByCategory. cbn [truthy typeof stringOf].
  change ("string" =? "string")%string with true. cbn [negb].
  rewrite orb_false_r, negb_involutive.
  destruct (String.eqb_spec category "") as [->|Hne].
  - split; [reflexivity|]. intros H. destruct H. reflexivity.
  - split; [apply sublist_List_filter|]. intros _ p.
    rewrite filter_In, String.eqb_eq. reflexivity.
Qed.

Lemma filterProductsByCategory_keeps_category_witness :
  filterProductsByCategory (VNumber 3) [sampleProduct "p1" 10 "Home"]
  = [sampleProduct "p1" 10 "Home"]
  /\ filterProductsByCategory (VObject []) [sampleProduct "p1" 10 "Home"]
     = [sampleProduct "p1" 10 "Home"].
Proof.
  pose proof (filterProductsByCategory_keeps_category "" [sampleProduct "p1" 10 "Home"])
    as (_ & _ & H & _).
  split; apply H; reflexivity.
Defined.

(** X2.  Searching and filtering by category commute: whatever the search
    text and the category, filtering the search result gives the same list
    as searching the filtered list. *)
Theorem searchProducts_filterProductsByCategory_commute
    (searchText category : value) (products : list product) :
  filterProductsByCategory category (searchProducts searchText products)
  = searchProducts searchText (filterProductsByCategory category products).
Proof.
  unfold filterProductsByCategory, searchProducts.
  destruct (negb (truthy category) || negb (String.eqb (typeof category) "string"));
    destruct (negb (truthy searchText)
              || negb (String.eqb (typeof searchText) "string"));
    try reflexivity.
  apply filter_filter_comm.
Qed.

(** X3.  Searching is idempotent: searching a search result again for the
    same text changes nothing. *)
Theorem searchProducts_idempotent (searchText : value) (products : list product) :
  searchProducts searchText (searchProducts searchText products)
  = searchProducts searchText products.
Proof.
  unfold searchProducts.
  destruct (negb (truthy searchText)
            || negb (String.eqb (typeof searchText) "string"));
    [reflexivity|]. apply filter_filter_same.
Qed.

(** X4.  The case of the search text does not matter: two texts with the
    same lower-case form select the same products. *)
Theorem searchProducts_ignores_case (text text' : string) (products : list product) :
  toLowerCase text = toLowerCase text' ->
  searchProducts (VString text) products = searchProducts (VString text') products.
Proof.
  intros H. unfold searchProducts. cbn [truthy typeof stringOf]. rewrite H.
  replace (String.eqb text "") with (String.eqb text' ""); [reflexivity|].
  destruct (String.eqb_spec text' "") as [->|Hne'], (String.eqb_spec text "") as [->|Hne];
    try reflexivity.
  - cbn [toLowerCase] in H. apply (proj1 (toLowerCase_empty text)) in H.
    contradiction.
  - cbn [toLowerCase] in H. symmetry in H.
    apply (proj1 (toLowerCase_empty text')) in H. contradiction.
Qed.

Lemma searchProducts_ignores_case_witness :
  searchProducts (VString "LAMP") [sampleProduct "p1" 10 "Home"]
  = searchProducts (VString "lamp") [sampleProduct "p1" 10 "Home"].
Proof.
  exact (searchProducts_ignores_case "LAMP" "lamp" _ eq_refl).
Defined.

(* ================================================================== *)
(** ** More on validation and on the writes of the adapter *)

(** X5.  On an object [validateProductData] reports at most one message for
    each field, in the order name, description, price, category; on any
    input it reports at most four messages. *)
Theorem validateProductData_messages_in_order (productData : value) :
  List.length (errors (validateProductData productData)) <= 4
  /\ (isObject productData = true ->
      sublist (map fieldOfError (errors (validateProductData productData)))
              [Some "name"; Some "description"; Some "price"; Some "category"]).
Proof.
  destruct (isObject productData) eqn:Hobj.
  - destruct (validateProductData_object productData Hobj) as [-> _].
    destruct (nameMessages_spec (get productData "name"))
      as [[_ ->] | (_ & mn & -> & Hn)];
    destruct (descriptionMessages_spec (get productData "description"))
      as [[_ ->] | (_ & md & -> & Hd)];
    destruct (priceMessages_spec (get productData "price"))
      as [[_ ->] | (_ & mp & -> & Hp)];
    destruct (categoryMessages_spec (get productData "category"))
      as [[_ ->] | (_ & mc & -> & Hc)];
    cbn [app map List.length]; rewrite ?Hn, ?Hd, ?Hp, ?Hc;
    (split; [lia|]); intros _;
    repeat first [apply sublist_nil | apply sublist_skip | apply sublist_cons].
  - rewrite (validateProductData_not_object productData Hobj). cbn.
    split; [lia | discriminate].
Qed.

(** X6.  Data that [validateProductData] reports valid are never rejected by
    the tests of the adapter: [createProduct] goes on to the store, and so
    does [updateProduct] for every product identifier. *)
Theorem valid_data_reach_the_store (productData : value) :
  isValid (validateProductData productData) = true ->
  thrown (createProduct productData) = None
  /\ forall productId,
       isIdentifier productId = true ->
       thrown (updateProduct productId productData) = None.
Proof.
  intros Hv. apply validateProductData_valid_accepted in Hv.
  apply firstError_accepted in Hv. split.
  - pose proof (createProduct_cases productData) as H. rewrite Hv in H.
    destruct H as (k & -> & _). reflexivity.
  - intros productId Hid.
    pose proof (updateProduct_cases productId productData) as H.
    rewrite Hid, Hv in H. destruct H as (k & -> & _). reflexivity.
Qed.

Lemma valid_data_reach_the_store_witness :
  thrown (createProduct (record "AB" (letters 10) 0 "x")) = None.
Proof.
  exact (proj1 (valid_data_reach_the_store (record "AB" (letters 10) 0 "x") eq_refl)).
Defined.

(** X8.  [updateProduct] tests the identifier first: when it is missing,
    empty or no string, the error is the one asking for the identifier and
    the store is not called, whatever the product data. *)
Theorem updateProduct_tests_identifier_first (productId productData : value) :
  isIdentifier productId = false ->
  updateProduct productId productData = throw (Error msg_id_required)
  /\ forall answer : (forall R, sdk R -> R),
       run answer (updateProduct productId productData)
       = ([], Rejected (Error msg_id_required)).
Proof.
  intros Hid. pose proof (updateProduct_cases productId productData) as H.
  rewrite Hid in H. cbn [negb] in H. split; [exact H|].
  intros answer. rewrite H. reflexivity.
Qed.

Lemma updateProduct_tests_identifier_first_witness :
  updateProduct (VString "") VNull = throw (Error msg_id_required).
Proof.
  exact (proj1 (updateProduct_tests_identifier_first (VString "") VNull eq_refl)).
Defined.

(** X9.  [deleteProduct] with an identifier that is missing, empty or no
    string throws the error asking for the identifier and does not call the
    store. *)
Theorem deleteProduct_requires_identifier (productId : value) :
  isIdentifier productId = false ->
  deleteProduct productId = throw (Error msg_id_required)
  /\ forall answer : (forall R, sdk R -> R),
       run answer (deleteProduct productId)
       = ([], Rejected (Error msg_id_required)).
Proof.
  intros Hid. pose proof (deleteProduct_cases productId) as H.
  rewrite Hid in H. split; [exact H|]. intros answer. rewrite H. reflexivity.
Qed.

Lemma deleteProduct_requires_identifier_witness :
  deleteProduct VUndefined = throw (Error msg_id_required).
Proof.
  exact (proj1 (deleteProduct_requires_identifier VUndefined eq_refl)).
Defined.

Lemma trimStart_startsClean (s : string) : startsClean (trimStart s) = true.
Proof.
  induction s as [|c s IH]; [reflexivity|]. simpl.
  destruct (isWhiteSpace c) eqn:Hc; [exact IH|]. simpl. rewrite Hc. reflexivity.
Qed.

Lemma trimStart_clean (s : string) : startsClean s = true -> trimStart s = s.
Proof.
  destruct s as [|c s]; [reflexivity|]. simpl.
  destruct (isWhiteSpace c); [discriminate|reflexivity].
Qed.

Lemma trimEnd_startsClean (s : string) :
  startsClean s = true -> startsClean (trimEnd s) = true.
Proof.
  destruct s as [|c s]; [reflexivity|]. simpl. intros Hc.
  destruct (trimEnd s); [|exact Hc].
  destruct (isWhiteSpace c) eqn:E; [reflexivity|]. simpl. rewrite E. reflexivity.
Qed.

Lemma trimEnd_idempotent (s : string) : trimEnd (trimEnd s) = trimEnd s.
Proof.
  induction s as [|c s IH]; [reflexivity|]. simpl.
  destruct (trimEnd s) as [|d r] eqn:Hr.
  - destruct (isWhiteSpace c) eqn:Hc; [reflexivity|]. simpl. rewrite Hc. reflexivity.
  - cbn [trimEnd]. cbn [trimEnd] in IH. rewrite IH. reflexivity.
Qed.

Lemma trim_idempotent (s : string) : trim (trim s) = trim s.
Proof.
  unfold trim.
  rewrite (trimStart_clean (trimEnd (trimStart s)))
    by apply trimEnd_startsClean, trimStart_startsClean.
  apply trimEnd_idempotent.
Qed.

Lemma trim_nonempty (s : string) : onlyWhiteSpace s = false -> trim s <> "".
Proof.
  intros Hs Ht. pose proof (trim_length_zero s) as H.
  rewrite Ht, Hs in H. discriminate H.
Qed.

(** X10.  The text fields [createProduct] and [updateProduct] write are
    clean: each is a non-empty string without white space at either end
    (trimming it again changes nothing). *)
Theorem written_text_is_trimmed (productData : value) :
  accepted productData = true ->
  Forall (fun field =>
            exists t, assoc field (writtenFields productData) = Some (VString t)
                      /\ t <> "" /\ trim t = t)
         ["name"; "description"; "category"].
Proof.
  unfold accepted. intros Hacc.
  apply andb_prop in Hacc as [Hacc Hc]. apply andb_prop in Hacc as [Hacc _].
  apply andb_prop in Hacc as [Hacc Hd]. apply andb_prop in Hacc as [_ Hn].
  unfold writtenFields.
  destruct (get productData "name") as [| |?|?|n| |?]; try discriminate Hn.
  destruct (get productData "description") as [| |?|?|d| |?]; try discriminate Hd.
  destruct (get productData "category") as [| |?|?|c| |?]; try discriminate Hc.
  cbn [textPresent] in *. apply negb_true_iff in Hn, Hd, Hc.
  repeat constructor; eexists; (split; [reflexivity|]); cbn [trimOf];
    (split; [apply trim_nonempty; assumption | apply trim_idempotent]).
Qed.

Lemma written_text_is_trimmed_witness :
  Forall (fun field =>
            exists t, assoc field (writtenFields (record "  AB " " 0123456789" 5 "x "))
                      = Some (VString t)
                      /\ t <> "" /\ trim t = t)
         ["name"; "description"; "category"].
Proof.
  exact (written_text_is_trimmed (record "  AB " " 0123456789" 5 "x ") eq_refl).
Defined.

Lemma priceRule_parseFloatOfNumber (x : float) :
  priceRule (VNumber x) = true ->
  priceRule (VNumber (parseFloatOfNumber x)) = true.
Proof.
  unfold parseFloatOfNumber. destruct (is_zero x); [|exact (fun H => H)].
  intros _. reflexivity.
Qed.

(** X11.  What the adapter writes for valid data is valid again: the four
    fields [createProduct] and [updateProduct] store, read back as product
    data, pass [validateProductData]. *)
Theorem written_fields_stay_valid (productData : value) :
  isValid (validateProductData productData) = true ->
  validateProductData (VObject (writtenFields productData))
  = {| isValid := true; errors := [] |}.
Proof.
  intros Hv.
  assert (Hobj : isObject productData = true).
  { destruct (isObject productData) eqn:Hobj; [reflexivity|].
    rewrite (validateProductData_not_object productData Hobj) in Hv.
    discriminate Hv. }
  destruct (validateProductData_rules productData Hobj) as (Hr & _).
  rewrite Hr in Hv.
  apply andb_prop in Hv as [Hv Hc]. apply andb_prop in Hv as [Hv Hp].
  apply andb_prop in Hv as [Hn Hd].
  destruct (validateProductData_rules (VObject (writtenFields productData)) eq_refl)
    as (Hr' & Hv' & _).
  assert (Hvalid : isValid (validateProductData (VObject (writtenFields productData)))
                   = true).
  { rewrite Hr'. unfold writtenFields.
    cbn [get assoc String.eqb Ascii.eqb Bool.eqb].
    destruct (get productData "name") as [| |?|?|n| |?]; try discriminate Hn.
    destruct (get productData "description") as [| |?|?|d| |?]; try discriminate Hd.
    destruct (get productData "price") as [| |?|x|?| |?]; try discriminate Hp.
    destruct (get productData "category") as [| |?|?|c| |?]; try discriminate Hc.
    cbn [trimOf numberOf nameRule descriptionRule categoryRule].
    rewrite !trim_idempotent.
    cbn [nameRule descriptionRule categoryRule] in Hn, Hd, Hc.
    rewrite Hn, Hd, Hc, (priceRule_parseFloatOfNumber x Hp). reflexivity. }
  destruct (validateProductData (VObject (writtenFields productData)))
    as [v e] eqn:E. cbn [isValid errors] in *.
  rewrite Hvalid, (proj1 Hv' Hvalid). reflexivity.
Qed.

Lemma written_fields_stay_valid_witness :
  validateProductData (VObject (writtenFields (record " AB " " 0123456789 " 0 " x ")))
  = {| isValid := true; errors := [] |}.
Proof.
  exact (written_fields_stay_valid (record " AB " " 0123456789 " 0 " x ") eq_refl).
Defined.

(* ================================================================== *)
(** ** More on getProductStats *)

(** X12.  Whatever the categories, [getProductStats] counts the records,
    sums their prices in the order of the list and divides the sum by the
    count; on the empty list the sum and the mean are 0. *)
Theorem getProductStats_totals (products : list product) :
  let s := getProductStats (ArrayOf products) in
  total s = List.length products
  /\ totalValue s = sumPrices products
  /\ averagePrice s
     = (if List.length products =? 0 then 0%float
        else (sumPrices products / numberOfNat (List.length products))%float).
Proof.
  intros s. subst s. unfold getProductStats, statsLoop.
  cbn [Array_isArray negb]. rewrite statsLoop_fold.
  destruct products as [|p l] eqn:Hl; [repeat split; reflexivity|].
  rewrite <- Hl in *. replace (List.length products =? 0) with false
    by (rewrite Hl; reflexivity).
  repeat split.
Qed.

Lemma getProductStats_lookup (products : list product) (c : string) :
  Forall (fun p => inheritedKey (product_category p) = false) products ->
  categories (getProductStats (ArrayOf products)) !! c
  = if countOf c products =? 0 then None else Some (Count (countOf c products)).
Proof.
  intros Hk. unfold getProductStats, statsLoop.
  cbn [Array_isArray negb]. rewrite statsLoop_fold.
  destruct products as [|p l] eqn:Hl; [reflexivity|].
  rewrite <- Hl in *. replace (List.length products =? 0) with false
    by (rewrite Hl; reflexivity).
  cbn [categories].
  destruct (countCategory_fold (map product_category products) ∅) as [Hc Hh].
  { apply Forall_map. exact Hk. }
  { intros k x Hx. rewrite lookup_empty in Hx. discriminate. }
  rewrite (held_lookup _ c Hc), Hh, countOf_keys.
  unfold held. rewrite lookup_empty. reflexivity.
Qed.

Lemma countOf_zero (c : string) (products : list product) :
  countOf c products = 0 <-> ~ In c (map product_category products).
Proof.
  unfold countOf. induction products as [|p l IH]; simpl; [tauto|].
  destruct (String.eqb_spec (product_category p) c) as [E|N]; simpl.
  - split; [discriminate | intros H; destruct H; left; exact E].
  - rewrite IH. tauto.
Qed.

(** X13.  When no category is the name of a property of [Object.prototype],
    the keys of [stats.categories] are exactly the categories that occur in
    the list, so their number (the "Categorias" figure of the statistics
    panel) is the number of distinct categories. *)
Theorem getProductStats_category_keys (products : list product) :
  Forall (fun p => inheritedKey (product_category p) = false) products ->
  dom (categories (getProductStats (ArrayOf products))) = categoriesOf products
  /\ size (categories (getProductStats (ArrayOf products)))
     = size (categoriesOf products).
Proof.
  intros Hk.
  assert (Hdom : dom (categories (getProductStats (ArrayOf products)))
                 = categoriesOf products).
  { apply set_eq. intros c. unfold categoriesOf.
    rewrite elem_of_dom, (getProductStats_lookup products c Hk),
      elem_of_list_to_set, list_elem_of_In.
    destruct (Nat.eqb_spec (countOf c products) 0) as [E|N].
    - apply countOf_zero in E. split; [intros [x Hx]; discriminate Hx|contradiction].
    - split; [|eauto]. intros _.
      destruct (in_dec string_dec c (map product_category products)) as [H|H];
        [exact H|]. apply countOf_zero in H. contradiction. }
  split; [exact Hdom|]. rewrite <- Hdom. symmetry. apply size_dom.
Qed.

Lemma getProductStats_category_keys_witness :
  size (categories (getProductStats
          (ArrayOf [ sampleProduct "p1" 10 "A"; sampleProduct "p2" 20 "A";
                     sampleProduct "p3" 30 "B" ])))
  = size (categoriesOf [ sampleProduct "p1" 10 "A"; sampleProduct "p2" 20 "A";
                         sampleProduct "p3" 30 "B" ]).
Proof.
  refine (proj2 (getProductStats_category_keys _ _)).
  repeat constructor.
Defined.

(* ================================================================== *)
(** ** The reads of the adapter *)

Lemma assoc_hasProperty (k : string) (props : list (string * value)) :
  hasProperty k props = false -> assoc k props = None.
Proof.
  unfold hasProperty.
  induction props as [|[k1 v1] rest IH]; cbn [existsb assoc fst]; [reflexivity|].
  destruct (String.eqb k k1); [discriminate|exact IH].
Qed.

Lemma assoc_replaceProperty (k k' : string) (v : value)
    (props : list (string * value)) :
  hasProperty k' props = true ->
  assoc k (replaceProperty k' v props)
  = if String.eqb k k' then Some v else assoc k props.
Proof.
  unfold hasProperty.
  induction props as [|[k1 v1] rest IH]; cbn [existsb replaceProperty assoc fst];
    [discriminate|].
  destruct (String.eqb_spec k' k1) as [->|N1]; cbn [assoc orb].
  - intros _. destruct (String.eqb k k1); reflexivity.
  - intros H. rewrite (IH H).
    destruct (String.eqb_spec k k1) as [->|N2]; [|reflexivity].
    destruct (String.eqb_spec k1 k') as [E|_]; [congruence|reflexivity].
Qed.

Lemma assoc_insertIndex (n : N) (k k' : string) (v : value)
    (props : list (string * value)) :
  assoc k' props = None ->
  assoc k (insertIndex n k' v props)
  = if String.eqb k k' then Some v else assoc k props.
Proof.
  induction props as [|[k1 v1] rest IH]; cbn [insertIndex assoc]; [reflexivity|].
  destruct (String.eqb_spec k' k1) as [->|N1]; [discriminate|]. intros H.
  destruct (arrayIndex k1) as [n1|]; [destruct (n1 <? n)%N|]; cbn [assoc];
    try reflexivity.
  rewrite (IH H). destruct (String.eqb_spec k k1) as [->|N2]; [|reflexivity].
  destruct (String.eqb_spec k1 k') as [E|_]; [congruence|reflexivity].
Qed.

Lemma assoc_app_new (k k' : string) (v : value) (props : list (string * value)) :
  assoc k (props ++ [(k', v)])
  = match assoc k props with
    | Some x => Some x
    | None => if String.eqb k k' then Some v else None
    end.
Proof.
  induction props as [|[k1 v1] rest IH]; cbn [app assoc]; [reflexivity|].
  destruct (String.eqb k k1); [reflexivity|exact IH].
Qed.

Lemma assoc_setProperty (k k' : string) (v : value) (props : list (string * value)) :
  assoc k (setProperty k' v props)
  = if String.eqb k k' then Some v else assoc k props.
Proof.
  unfold setProperty. destruct (hasProperty k' props) eqn:Hk.
  - apply assoc_replaceProperty, Hk.
  - apply assoc_hasProperty in Hk.
    destruct (arrayIndex k') as [n|]; [apply assoc_insertIndex, Hk|].
    rewrite assoc_app_new.
    destruct (String.eqb_spec k k') as [->|N]; [rewrite Hk; reflexivity|].
    destruct (assoc k props); reflexivity.
Qed.

Lemma assoc_absent (k : string) (props : list (string * value)) :
  ~ In k (map fst props) -> assoc k props = None.
Proof.
  induction props as [|[k1 v1] rest IH]; cbn [assoc map fst In]; [reflexivity|].
  intros H. destruct (String.eqb_spec k k1) as [->|N]; [tauto|]. apply IH. tauto.
Qed.

Lemma assoc_spread (k : string) (props data : list (string * value)) :
  List.NoDup (map fst data) ->
  assoc k (spread props data)
  = match assoc k data with Some v => Some v | None => assoc k props end.
Proof.
  unfold spread. revert props.
  induction data as [|[k1 v1] rest IH]; intros props Hnd; [reflexivity|].
  cbn [fold_left fst snd assoc]. cbn [map fst] in Hnd.
  apply List.NoDup_cons_iff in Hnd as [Hk1 Hnd].
  rewrite (IH _ Hnd), assoc_setProperty.
  destruct (String.eqb_spec k k1) as [->|N]; [|reflexivity].
  rewrite (assoc_absent k1 rest Hk1). reflexivity.
Qed.

Lemma snapshotProducts_map (snapshot : list QueryDocumentSnapshot) :
  snapshotProducts snapshot
  = map (fun d => VObject (spread [("id", VString (doc_id d))] (doc_data d)))
        snapshot.
Proof.
  unfold snapshotProducts.
  assert (H : forall acc,
             fold_left
               (fun products d =>
                  push products
                    (VObject (spread [("id", VString (doc_id d))] (doc_data d))))
               snapshot acc
             = acc ++ map (fun d => VObject (spread [("id", VString (doc_id d))]
                                                    (doc_data d))) snapshot).
  { induction snapshot as [|d l IH]; intros acc; cbn [fold_left map].
    - rewrite app_nil_r. reflexivity.
    - rewrite IH. unfold push. rewrite <- app_assoc. reflexivity. }
  apply (H []).
Qed.

(** X14.  A product built from a document carries the identifier of the
    document unless the data of the document have a field named "id", whose
    value then takes its place; every other field reads as in the document.
    The loop yields one product for each document, in the order of the
    snapshot. *)
Theorem snapshot_products_fields (snapshot : list QueryDocumentSnapshot) :
  Forall (fun d => List.NoDup (map fst (doc_data d))) snapshot ->
  List.length (snapshotProducts snapshot) = List.length snapshot
  /\ forall i d,
       nth_error snapshot i = Some d ->
       exists p,
         nth_error (snapshotProducts snapshot) i = Some p
         /\ get p "id" = match assoc "id" (doc_data d) with
                         | Some v => v
                         | None => VString (doc_id d)
                         end
         /\ forall k, k <> "id" -> get p k = get (VObject (doc_data d)) k.
Proof.
  intros Hnd. rewrite snapshotProducts_map. split; [apply length_map|].
  intros i d Hi. eexists. split; [apply map_nth_error, Hi|].
  assert (Hd : List.NoDup (map fst (doc_data d))).
  { rewrite List.Forall_forall in Hnd. apply Hnd. eapply nth_error_In, Hi. }
  cbn [get]. split.
  - rewrite (assoc_spread _ _ _ Hd). destruct (assoc "id" (doc_data d)); reflexivity.
  - intros k Hk. rewrite (assoc_spread _ _ _ Hd).
    destruct (assoc k (doc_data d)); [reflexivity|]. cbn [assoc].
    destruct (String.eqb_spec k "id"); [contradiction|reflexivity].
Qed.

Lemma snapshot_products_fields_witness :
  List.length
    (snapshotProducts
       [ {| doc_id := "d1"; doc_data := [("name", VString "Lamp"); ("id", VString "x")] |};
         {| doc_id := "d2"; doc_data := [("name", VString "Desk")] |} ])
  = 2.
Proof.
  refine (proj1 (snapshot_products_fields _ _)).
  repeat first [ apply List.Forall_nil | apply List.Forall_cons
               | apply List.NoDup_nil | apply List.NoDup_cons ];
    cbn; intuition discriminate.
Defined.

(** X15.  [getProductsOnce] performs one read, of the collection "productos"
    ordered by "createdAt" descending; it returns one product for each
    document of the snapshot, in the order of the snapshot, and throws the
    error of the store when the read fails. *)
Theorem getProductsOnce_reads_once (answer : forall R, reads R -> R) :
  let q := {| query_path := "productos"; query_orderBy := ("createdAt", "desc") |} in
  run answer getProductsOnce
  = ([ev (getDocs q)],
     match answer _ (getDocs q) with
     | Fulfilled snapshot =>
         Fulfilled
           (map (fun d => VObject (spread [("id", VString (doc_id d))] (doc_data d)))
                snapshot)
     | Rejected e => Rejected e
     end).
Proof.
  intros q. unfold getProductsOnce. cbv zeta. cbn [tryCatch await run].
  change (collection COLLECTION_NAME) with "productos". fold q. destruct (answer _ (getDocs q)) as [snapshot|e];
    cbn [tryCatch run throw].
  - rewrite <- snapshotProducts_map. reflexivity.
  - reflexivity.
Qed.

(* ================================================================== *)
(** ** escapeHtml *)

Lemma append_cons (c : ascii) (a b : string) :
  String c a +:+ b = String c (a +:+ b).
Proof. reflexivity. Qed.

Lemma append_empty (b : string) : "" +:+ b = b.
Proof. reflexivity. Qed.

Lemma length_append (a b : string) :
  String.length (a +:+ b) = String.length a + String.length b.
Proof.
  induction a as [|d a IH]; [reflexivity|]. rewrite append_cons.
  cbn [String.length]. rewrite IH. reflexivity.
Qed.

Lemma occurs_app (c : ascii) (a b : string) :
  occurs c (a +:+ b) = occurs c a || occurs c b.
Proof.
  induction a as [|d a IH]; [reflexivity|]. rewrite append_cons. cbn [occurs].
  rewrite IH, orb_assoc. reflexivity.
Qed.

Lemma escapeChar_cases (c : ascii) :
  (c = "&"%char /\ escapeChar c = "&amp;")
  \/ (c = "160"%char /\ escapeChar c = "&nbsp;")
  \/ (c = "<"%char /\ escapeChar c = "&lt;")
  \/ (c = ">"%char /\ escapeChar c = "&gt;")
  \/ (c <> "&"%char /\ c <> "160"%char /\ c <> "<"%char /\ c <> ">"%char
      /\ escapeChar c = String c "").
Proof.
  unfold escapeChar.
  destruct (Ascii.eqb_spec c "&"); [subst; auto|].
  destruct (Ascii.eqb_spec c "160"); [subst; auto|].
  destruct (Ascii.eqb_spec c "<"); [subst; auto 6|].
  destruct (Ascii.eqb_spec c ">"); [subst; auto 6|].
  auto 10.
Qed.

Lemma plainText_cons (c : ascii) (rest : string) :
  plainText (String c rest) = true ->
  c <> "&"%char /\ c <> "160"%char /\ c <> "<"%char /\ c <> ">"%char
  /\ plainText rest = true.
Proof.
  unfold plainText. cbn [occurs].
  destruct (Ascii.eqb_spec "&" c), (Ascii.eqb_spec "160" c),
    (Ascii.eqb_spec "<" c), (Ascii.eqb_spec ">" c),
    (occurs "&" rest), (occurs "160" rest), (occurs "<" rest), (occurs ">" rest);
    cbn [orb negb]; intros H; try discriminate H; repeat split; congruence.
Qed.

(** X16.  The markup [escapeHtml] returns contains neither "<" nor ">", so
    escaped text cannot open or close a tag; text without "&", "<", ">" and
    U+00A0 is returned as it is, and no text gets shorter. *)
Theorem escapeHtml_has_no_angle_brackets (text : string) :
  occurs "<" (escapeHtml text) = false
  /\ occurs ">" (escapeHtml text) = false
  /\ String.length text <= String.length (escapeHtml text)
  /\ (plainText text = true -> escapeHtml text = text).
Proof.
  induction text as [|c rest (IH1 & IH2 & IH3 & IH4)];
    [repeat split; reflexivity|].
  cbn [escapeHtml]. rewrite !occurs_app, IH1, IH2, !orb_false_r, length_append.
  split; [|split; [|split]].
  - destruct (escapeChar_cases c)
      as [[-> ->] | [[-> ->] | [[-> ->] | [[-> ->] | (N1 & N2 & N3 & N4 & ->)]]]];
      try reflexivity.
    cbn [occurs]. rewrite orb_false_r. apply Ascii.eqb_neq. congruence.
  - destruct (escapeChar_cases c)
      as [[-> ->] | [[-> ->] | [[-> ->] | [[-> ->] | (N1 & N2 & N3 & N4 & ->)]]]];
      try reflexivity.
    cbn [occurs]. rewrite orb_false_r. apply Ascii.eqb_neq. congruence.
  - destruct (escapeChar_cases c)
      as [[-> ->] | [[-> ->] | [[-> ->] | [[-> ->] | (N1 & N2 & N3 & N4 & ->)]]]];
      cbn [String.length]; lia.
  - intros H. apply plainText_cons in H as (N1 & N2 & N3 & N4 & H).
    destruct (escapeChar_cases c)
      as [[E _] | [[E _] | [[E _] | [[E _] | (_ & _ & _ & _ & ->)]]]];
      try contradiction.
    rewrite append_cons, append_empty, (IH4 H). reflexivity.
Qed.

Lemma escapeChar_app_inj (c d : ascii) (x y : string) :
  escapeChar c +:+ x = escapeChar d +:+ y -> c = d /\ x = y.
Proof.
  destruct (escapeChar_cases c)
    as [[-> ->] | [[-> ->] | [[-> ->] | [[-> ->] | (C1 & C2 & C3 & C4 & ->)]]]];
  destruct (escapeChar_cases d)
    as [[-> ->] | [[-> ->] | [[-> ->] | [[-> ->] | (D1 & D2 & D3 & D4 & ->)]]]];
  rewrite ?append_cons, ?append_empty; intros H; injection H; intros; subst;
    try discriminate; try congruence; split; congruence.
Qed.

(** X17.  [escapeHtml] loses nothing: two texts with the same escaped form
    are the same text. *)
Theorem escapeHtml_injective (text text' : string) :
  escapeHtml text = escapeHtml text' -> text = text'.
Proof.
  revert text'. induction text as [|c rest IH]; intros [|d rest'] H.
  - reflexivity.
  - cbn [escapeHtml] in H.
    destruct (escapeChar_cases d)
      as [[-> E] | [[-> E] | [[-> E] | [[-> E] | (_ & _ & _ & _ & E)]]]];
      rewrite E in H; discriminate H.
  - cbn [escapeHtml] in H.
    destruct (escapeChar_cases c)
      as [[-> E] | [[-> E] | [[-> E] | [[-> E] | (_ & _ & _ & _ & E)]]]];
      rewrite E in H; discriminate H.
  - cbn [escapeHtml] in H. apply escapeChar_app_inj in H as [-> H].
    f_equal. apply IH, H.
Qed.

Lemma escapeHtml_injective_witness : "a<b" = "a<b".
Proof.
  exact (escapeHtml_injective "a<b" "a<b" eq_refl).
Defined.

(* ================================================================== *)
(** ** More on the controller: the fields and the form *)

Ltac known_message :=
  repeat match goal with
         | |- context [if ?c then _ else _] => destruct c
         end;
  repeat first [apply List.Forall_cons | apply List.Forall_nil];
  unfold fieldMessages; cbn [In];
  repeat first [left; reflexivity | right].

Lemma block_messages_known :
  forall v,
    Forall (fun m => In m fieldMessages) (nameMessages v)
    /\ Forall (fun m => In m fieldMessages) (descriptionMessages v)
    /\ Forall (fun m => In m fieldMessages) (priceMessages v)
    /\ Forall (fun m => In m fieldMessages) (categoryMessages v).
Proof.
  intros v. split; [|split; [|split]].
  - unfold nameMessages. known_message.
  - unfold descriptionMessages. known_message.
  - unfold priceMessages. known_message.
  - unfold categoryMessages. known_message.
Qed.

Lemma validateProductData_messages_known (productData : value) :
  isObject productData = true ->
  Forall (fun m => In m fieldMessages) (errors (validateProductData productData)).
Proof.
  intros Hobj. destruct (validateProductData_object productData Hobj) as [-> _].
  destruct (block_messages_known (get productData "name")) as (K1 & _).
  destruct (block_messages_known (get productData "description")) as (_ & K2 & _).
  destruct (block_messages_known (get productData "price")) as (_ & _ & K3 & _).
  destruct (block_messages_known (get productData "category")) as (_ & _ & _ & K4).
  repeat apply Forall_app_2; assumption.
Qed.

Lemma fieldMessages_name_no_field :
  Forall (fun fieldName =>
            Forall (fun m => includes (toLowerCase m) (toLowerCase fieldName) = false)
                   fieldMessages)
         ["name"; "description"; "price"; "category"].
Proof. repeat constructor. Qed.

Section FieldValidation.

Variable parseFloat : string -> float.

(** X18.  [validateField] never reports an error: it looks for the English
    name of the field in the Spanish messages of [validateProductData], finds
    none, and so clears the error of the field (marking it as correct),
    whatever the form holds. *)
Theorem validateField_always_clears (f : form) :
  Forall (fun fieldName =>
            validateField parseFloat fieldName f = clearFieldError fieldName)
         ["name"; "description"; "price"; "category"].
Proof.
  pose proof (validateProductData_messages_known (getFormData parseFloat f) eq_refl)
    as Hknown.
  pose proof fieldMessages_name_no_field as Hno.
  rewrite List.Forall_forall in Hno. apply List.Forall_forall. intros fieldName Hin.
  specialize (Hno fieldName Hin). rewrite List.Forall_forall in Hno, Hknown.
  unfold validateField. cbv zeta.
  rewrite (filter_none _ (errors (validateProductData (getFormData parseFloat f))));
    [reflexivity|].
  intros m Hm. apply Hno, Hknown, Hm.
Qed.

(** What a valid submit does, in either mode. *)
Lemma exec_handleFormSubmit_valid (f : form) (st : app_state) tr st' :
  isValid (validateProductData (getFormData parseFloat f)) = true ->
  exec (handleFormSubmit parseFloat f st) tr st' ->
  List.filter isAdapterCall tr
  = [ if isEditing st
      then ev (UpdateProduct (currentEditId st) (getFormData parseFloat f))
      else ev (CreateProduct (getFormData parseFloat f)) ]
  /\ shownFieldErrors tr = []
  /\ timerDelays tr = []
  /\ (st' = st \/ st' = set_editing false VNull st)
  /\ exists middle,
       tr = ev PreventDefault
            :: ev (SetSubmitButtonLoading true (isEditing st))
            :: middle ++ [ev (SetSubmitButtonLoading false (isEditing st'))].
Proof.
  intros Hvalid H. unfold handleFormSubmit in H. cbv zeta in H.
  rewrite Hvalid in H. cbn [negb] in H.
  unfold exitEditMode, clearForm, exitEditMode in H.
  exec_step H. exec_step H.
  destruct (isEditing st) eqn:Hed; exec_step H; destruct r1 as [u|e];
    repeat exec_step H; rewrite ?Hed;
    (split; [reflexivity|]); (split; [reflexivity|]); (split; [reflexivity|]);
    (split; [auto|]); eexists; cbn [isEditing set_editing]; rewrite ?Hed;
    match goal with
    | |- _ :: _ :: ?l = _ :: _ :: ?m ++ [?x] =>
        let l' := eval cbv in (removelast l) in
        instantiate (1 := l')
    end; reflexivity.
Qed.

(** X19.  A valid submit calls the adapter exactly once: [updateProduct] with
    the identifier being edited when the form is editing, [createProduct]
    otherwise, with the data of the form.  It shows no field error, sets no
    reconnect timer, leaves the state as it was or back in creating mode, and
    restores the submit button at the end. *)
Theorem handleFormSubmit_valid_calls_adapter_once
    (f : form) (st : app_state) (tr : list (event ui)) (st' : app_state) :
  isValid (validateProductData (getFormData parseFloat f)) = true ->
  exec (handleFormSubmit parseFloat f st) tr st' ->
  List.filter isAdapterCall tr
  = [ if isEditing st
      then ev (UpdateProduct (currentEditId st) (getFormData parseFloat f))
      else ev (CreateProduct (getFormData parseFloat f)) ]
  /\ shownFieldErrors tr = []
  /\ timerDelays tr = []
  /\ (st' = st \/ st' = set_editing false VNull st)
  /\ exists middle,
       tr = ev PreventDefault
            :: ev (SetSubmitButtonLoading true (isEditing st))
            :: middle ++ [ev (SetSubmitButtonLoading false (isEditing st'))].
Proof. exact (exec_handleFormSubmit_valid f st tr st'). Qed.

End FieldValidation.

Lemma handleFormSubmit_valid_calls_adapter_once_witness :
  let f := {| nameInput := "Lamp"; descriptionInput := "A desk lamp";
              priceInput := "5"; categorySelect := "Home" |} in
  List.filter isAdapterCall
    (run failing (handleFormSubmit parseFloatSample f initialState)).1
  = [ev (CreateProduct (getFormData parseFloatSample f))].
Proof.
  intros f.
  exact (proj1 (handleFormSubmit_valid_calls_adapter_once parseFloatSample f
                  initialState _ _ eq_refl (exec_run failing _))).
Defined.

Section SubmitOutcome.

Variable parseFloat : string -> float.

Lemma run_handleFormSubmit_valid
    (answer : forall R, ui R -> R) (f : form) (st : app_state) :
  isValid (validateProductData (getFormData parseFloat f)) = true ->
  let formData := getFormData parseFloat f in
  let tr := (run answer (handleFormSubmit parseFloat f st)).1 in
  let st' := (run answer (handleFormSubmit parseFloat f st)).2 in
  if isEditing st then
    match answer _ (UpdateProduct (currentEditId st) formData) with
    | Fulfilled _ =>
        st' = set_editing false VNull st
        /\ In (ev (ShowToast "Producto actualizado exitosamente" "success")) tr
        /\ formWasReset tr = false
    | Rejected e =>
        st' = st
        /\ In (ev (ShowToast ("Error: " +:+ message e) "error")) tr
        /\ formWasReset tr = false
    end
  else
    match answer _ (CreateProduct formData) with
    | Fulfilled _ =>
        st' = set_editing false VNull st
        /\ In (ev (ShowToast "Producto creado exitosamente" "success")) tr
        /\ formWasReset tr = true
    | Rejected e =>
        st' = st
        /\ In (ev (ShowToast ("Error: " +:+ message e) "error")) tr
        /\ formWasReset tr = false
    end.
Proof.
  intros Hvalid formData tr st'. subst formData tr st'.
  unfold handleFormSubmit. cbv zeta. rewrite Hvalid. cbn [negb].
  unfold exitEditMode, clearForm, exitEditMode, showToast, call, mbind, prog_bind,
    mret, prog_ret.
  cbn [bind run].
  destruct (isEditing st); cbn [bind run].
  - destruct (answer _ (UpdateProduct (currentEditId st) _)) as [u|e];
      cbn [bind run fst snd]; repeat split; cbn [In]; auto 8.
  - destruct (answer _ (CreateProduct _)) as [u|e];
      cbn [bind run fst snd]; repeat split; cbn [In]; auto 8.
Qed.

(** X20.  The outcome of a valid submit.  When the adapter call fails, the
    error of the store is shown as "Error: <message>", the form is not reset
    and the state is kept, so an edit stays an edit.  When it succeeds, the
    success notice is shown and the controller is in creating mode
    afterwards; the form is reset after a creation and not after an update. *)
Theorem handleFormSubmit_outcome
    (answer : forall R, ui R -> R) (f : form) (st : app_state) :
  isValid (validateProductData (getFormData parseFloat f)) = true ->
  let formData := getFormData parseFloat f in
  let tr := (run answer (handleFormSubmit parseFloat f st)).1 in
  let st' := (run answer (handleFormSubmit parseFloat f st)).2 in
  if isEditing st then
    match answer _ (UpdateProduct (currentEditId st) formData) with
    | Fulfilled _ =>
        st' = set_editing false VNull st
        /\ In (ev (ShowToast "Producto actualizado exitosamente" "success")) tr
        /\ formWasReset tr = false
    | Rejected e =>
        st' = st
        /\ In (ev (ShowToast ("Error: " +:+ message e) "error")) tr
        /\ formWasReset tr = false
    end
  else
    match answer _ (CreateProduct formData) with
    | Fulfilled _ =>
        st' = set_editing false VNull st
        /\ In (ev (ShowToast "Producto creado exitosamente" "success")) tr
        /\ formWasReset tr = true
    | Rejected e =>
        st' = st
        /\ In (ev (ShowToast ("Error: " +:+ message e) "error")) tr
        /\ formWasReset tr = false
    end.
Proof. exact (run_handleFormSubmit_valid answer f st). Qed.

End SubmitOutcome.

Lemma handleFormSubmit_outcome_witness :
  let f := {| nameInput := "Lamp"; descriptionInput := "A desk lamp";
              priceInput := "5"; categorySelect := "Home" |} in
  let st := set_editing true (VString "p1") initialState in
  (run failing (handleFormSubmit parseFloatSample f st)).2 = st.
Proof.
  intros f st.
  exact (proj1 (handleFormSubmit_outcome parseFloatSample failing f st eq_refl)).
Defined.

(* ================================================================== *)
(** ** More on the controller: the subscription and the table *)

Lemma exec_handle_state (i : input) (st : app_state) tr st' :
  exec (handle i st) tr st' ->
  allProducts st'
  = match i with Delivered products => products | _ => allProducts st end
  /\ isEditing st' = isEditing st
  /\ currentEditId st' = currentEditId st.
Proof.
  destruct i as [products|e|]; cbn [handle]; intros H.
  - unfold onProducts in H. repeat exec_step H. repeat split.
  - unfold onProducts, attemptReconnect in H.
    destruct (decide (code e = Some "permission-denied")) as [Hp|Hp];
      [|destruct (decide (code e = Some "unavailable")) as [Hu|Hu];
        [destruct (reconnectAttempts st <? MAX_RECONNECT_ATTEMPTS)|]];
      repeat exec_step H; repeat split.
  - unfold reconnectTimer, startRealTimeListener in H.
    destruct (unsubscribeProducts st) as [h|]; repeat exec_step H;
      destruct r as [h'|e] || destruct r0 as [h'|e];
      repeat exec_step H; repeat split.
Qed.

Lemma handles_mirror st n ins tr st' n' :
  handles st n ins tr st' n' ->
  allProducts st' = lastDelivered ins (allProducts st).
Proof.
  induction 1 as [st n|st n i ins tr st1 tr' st' n' Hen Hex Hrest IH];
    [reflexivity|].
  rewrite IH. destruct (exec_handle_state _ _ _ _ Hex) as (-> & _).
  destruct i; reflexivity.
Qed.

(** X21.  The local mirror [allProducts] is always the last snapshot that
    was delivered (the empty list before the first one): an error of the
    subscription, a reconnect attempt or the expiry of a timer never changes
    it, so after an error the mirror still holds the products last
    received. *)
Theorem mirror_is_last_snapshot
    (ins : list input) (tr : list (event ui)) (st : app_state) (n : nat) :
  session ins tr st n ->
  allProducts st = lastDelivered ins [].
Proof.
  intros (tr0 & st0 & tr1 & H0 & H1 & _).
  rewrite (handles_mirror _ _ _ _ _ _ H1).
  unfold startRealTimeListener in H0. exec_step H0.
  destruct r as [h|e]; repeat exec_step H0; reflexivity.
Qed.

Lemma mirror_is_last_snapshot_witness :
  let ins := [ Delivered [sampleProduct "p1" 10 "Home"]; Failed unavailable ] in
  exists tr st n,
    runSession failing ins = Some (tr, st, n)
    /\ allProducts st = [sampleProduct "p1" 10 "Home"].
Proof.
  intros ins.
  destruct (runSession failing ins) as [[[tr st] n]|] eqn:Hrun;
    [|vm_compute in Hrun; discriminate Hrun].
  exists tr, st, n. split; [reflexivity|].
  exact (mirror_is_last_snapshot ins tr st n
           (runSession_session failing ins tr st n Hrun)).
Defined.

(** X22.  A "permission-denied" error of the subscription never starts a
    reconnect: the controller shows the notice and the panel with the
    instructions, leaves the loading state, shows the empty state, and keeps
    its state, mirror and attempt count included. *)
Theorem permission_denied_does_not_reconnect
    (e : error) (st : app_state) (tr : list (event ui)) (st' : app_state) :
  code e = Some "permission-denied" ->
  exec (handle (Failed e) st) tr st' ->
  st' = st
  /\ timerDelays tr = []
  /\ tr = [ ev (ShowToast "Error de permisos: Configura las reglas de Firestore"
                   "error");
            ev ShowPermissionError;
            ev (UpdateLoadingState false);
            ev ShowEmptyState ].
Proof.
  intros Hcode H. cbn [handle] in H. unfold onProducts in H. rewrite Hcode in H.
  destruct (decide (Some "permission-denied" = Some "permission-denied")) as [_|N];
    [|destruct N; reflexivity].
  repeat exec_step H. repeat split.
Qed.

Lemma permission_denied_does_not_reconnect_witness :
  (run failing (handle (Failed permissionDenied) initialState)).2 = initialState.
Proof.
  exact (proj1 (permission_denied_does_not_reconnect permissionDenied initialState
                  _ _ eq_refl (exec_run failing _))).
Defined.

(** X23.  [handleDeleteProduct] calls [deleteProduct] only for an identifier
    found in the mirror and only after the user has confirmed: for an
    unknown identifier it only shows "Producto no encontrado"; otherwise it
    first asks, naming the product, and calls [deleteProduct] once with that
    identifier when the answer is yes, and not at all when it is no. *)
Theorem handleDeleteProduct_asks_first
    (answer : forall R, table R -> R) (productId : string) (st : app_state) :
  let tr := (run answer (handleDeleteProduct productId st)).1 in
  match List.find (fun p => String.eqb (product_id p) productId) (allProducts st) with
  | None =>
      tr = [ev (Controller (ShowToast "Producto no encontrado" "error"))]
  | Some product =>
      product_id product = productId
      /\ In product (allProducts st)
      /\ (exists rest, tr = ev (Confirm (confirmQuestion product)) :: rest)
      /\ deleteCalls tr
         = if answer _ (Confirm (confirmQuestion product))
           then [VString productId] else []
  end.
Proof.
  intros tr. subst tr. unfold handleDeleteProduct.
  destruct (List.find _ (allProducts st)) as [product|] eqn:Hfind; [|reflexivity].
  apply find_some in Hfind as [Hin Hid]. apply String.eqb_eq in Hid.
  split; [exact Hid|]. split; [exact Hin|].
  fold (confirmQuestion product).
  unfold showToast, call, mbind, prog_bind. cbn [bind run lift].
  destruct (answer _ (Confirm (confirmQuestion product))); cbn [negb bind run lift].
  - destruct (answer _ (DeleteProduct (VString productId))) as [u|e];
      cbn [bind run lift fst]; split; try reflexivity; eexists; reflexivity.
  - cbn [fst]. split; [eexists|]; reflexivity.
Qed.

Lemma exec_handleEditProduct (productId : string) (st : app_state) tr st1 :
  exec (handleEditProduct productId st) tr st1 ->
  match List.find (fun p => String.eqb (product_id p) productId) (allProducts st) with
  | None =>
      st1 = st
      /\ tr = [ev (Controller (ShowToast "Producto no encontrado" "error"))]
  | Some product =>
      product_id product = productId
      /\ st1 = set_editing true (VString productId) st
      /\ tr = [ ev (LoadFormValues (product_name product)
                      (product_description product) (product_price product)
                      (product_category product));
                ev (Controller (EditModeChrome true));
                ev ScrollFormIntoView;
                ev (Controller
                      (ShowToast ("Modo edici" +:+ o_acute +:+ "n activado") "info")) ]
  end.
Proof.
  unfold handleEditProduct, loadForm, enterEditMode.
  destruct (List.find _ (allProducts st)) as [product|] eqn:Hfind.
  - apply find_some in Hfind as [_ Hid]. apply String.eqb_eq in Hid.
    unfold showToast, call, mret, prog_ret, mbind, prog_bind. cbn [bind lift exec].
    intros (r1 & tr1 & -> & r2 & tr2 & -> & r3 & tr3 & -> & r4 & tr4 & -> & -> & ->).
    rewrite Hid. repeat split.
  - unfold showToast, call, mret, prog_ret, mbind, prog_bind. cbn [bind lift exec].
    intros (r1 & tr1 & -> & -> & ->). split; reflexivity.
Qed.

Section EditMode.

Variable parseFloat : string -> float.

(** X24.  Editing a product of the mirror and then submitting a valid form
    updates that product: [handleEditProduct] loads the fields of the product
    into the form and enters edit mode with its identifier, and the submit
    calls [updateProduct] with that identifier and nothing else of the
    adapter.  For an identifier that is not in the mirror the state is kept
    and only "Producto no encontrado" is shown. *)
Theorem handleEditProduct_then_submit
    (productId : string) (st st1 st2 : app_state) (f : form)
    (tr : list (event table)) (tr' : list (event ui)) :
  exec (handleEditProduct productId st) tr st1 ->
  isValid (validateProductData (getFormData parseFloat f)) = true ->
  exec (handleFormSubmit parseFloat f st1) tr' st2 ->
  match List.find (fun p => String.eqb (product_id p) productId) (allProducts st) with
  | None =>
      st1 = st
      /\ tr = [ev (Controller (ShowToast "Producto no encontrado" "error"))]
  | Some product =>
      (exists rest,
         tr = ev (LoadFormValues (product_name product)
                    (product_description product) (product_price product)
                    (product_category product)) :: rest)
      /\ isEditing st1 = true
      /\ List.filter isAdapterCall tr'
         = [ev (UpdateProduct (VString (product_id product))
                  (getFormData parseFloat f))]
      /\ (st2 = set_editing true (VString (product_id product)) st
          \/ st2 = set_editing false VNull st)
  end.
Proof.
  intros Hedit Hvalid Hsubmit. apply exec_handleEditProduct in Hedit.
  destruct (List.find _ (allProducts st)) as [product|]; [|exact Hedit].
  destruct Hedit as (Hid & -> & ->).
  destruct (exec_handleFormSubmit_valid parseFloat f _ _ _ Hvalid Hsubmit)
    as (Hcalls & _ & _ & Hst & _).
  rewrite Hid. split; [eexists; reflexivity|]. split; [reflexivity|].
  split; [exact Hcalls|]. exact Hst.
Qed.

End EditMode.

Lemma handleEditProduct_then_submit_witness :
  let st := set_allProducts [sampleProduct "p1" 10 "Home"] initialState in
  let f := {| nameInput := "Lamp"; descriptionInput := "A desk lamp";
              priceInput := "5"; categorySelect := "Home" |} in
  let st1 := (run agreeing (handleEditProduct "p1" st)).2 in
  List.filter isAdapterCall
    (run failing (handleFormSubmit parseFloatSample f st1)).1
  = [ev (UpdateProduct (VString "p1") (getFormData parseFloatSample f))].
Proof.
  intros st f st1.
  exact (proj1 (proj2 (proj2
           (handleEditProduct_then_submit parseFloatSample "p1" st st1 _ f _ _
              (exec_run agreeing _) eq_refl (exec_run failing _))))).
Defined.

(** X25.  Cancelling an edit leaves creating mode: after [handleEditProduct],
    whether or not it found the product, [handleCancelEdit] resets the form,
    clears the field errors, leaves edit mode and shows the notice of the
    cancellation; the state is the one before the edit with no identifier
    being edited, and nothing of the adapter is called. *)
Theorem handleCancelEdit_leaves_edit_mode
    (productId : string) (st st1 st2 : app_state)
    (tr : list (event table)) (tr' : list (event ui)) :
  exec (handleEditProduct productId st) tr st1 ->
  exec (handleCancelEdit st1) tr' st2 ->
  st2 = set_editing false VNull st
  /\ List.filter isAdapterCall tr' = []
  /\ tr' = [ ev FormReset; ev ClearAllFieldErrors; ev (EditModeChrome false);
             ev (ShowToast ("Edici" +:+ o_acute +:+ "n cancelada") "info") ].
Proof.
  intros Hedit Hcancel. apply exec_handleEditProduct in Hedit.
  unfold handleCancelEdit, clearForm, exitEditMode in Hcancel.
  repeat exec_step Hcancel.
  split; [|split; reflexivity].
  destruct (List.find _ (allProducts st)) as [product|].
  - destruct Hedit as (_ & -> & _). reflexivity.
  - destruct Hedit as (-> & _). reflexivity.
Qed.

Lemma handleCancelEdit_leaves_edit_mode_witness :
  let st := set_allProducts [sampleProduct "p1" 10 "Home"] initialState in
  (run failing (handleCancelEdit (run agreeing (handleEditProduct "p1" st)).2)).2
  = set_editing false VNull st.
Proof.
  intros st.
  exact (proj1 (handleCancelEdit_leaves_edit_mode "p1" st _ _ _ _
                  (exec_run agreeing _) (exec_run failing _))).
Defined.

(* ================================================================== *)
(** ** The controller over the adapter *)

Section Linked.

Variable parseFloat : string -> float.

(** X26.  A valid submit over the adapter reaches the store: the tests of
    [createProduct] and [updateProduct] never fail on data the form has
    validated, so the one write is made, with the trimmed fields, the price
    and the timestamps, and the notice shown is the success notice or the
    error of the store itself.  In edit mode this needs the identifier being
    edited to be a non-empty string. *)
Theorem valid_submit_writes_to_the_store
    (store : forall R, sdk R -> R) (browser : forall R, ui R -> R)
    (f : form) (st : app_state) :
  isValid (validateProductData (getFormData parseFloat f)) = true ->
  (isEditing st = true -> isIdentifier (currentEditId st) = true) ->
  let formData := getFormData parseFloat f in
  let tr := (run (linked store browser) (handleFormSubmit parseFloat f st)).1 in
  let st' := (run (linked store browser) (handleFormSubmit parseFloat f st)).2 in
  if isEditing st then
    match store _ (updateDoc (doc COLLECTION_NAME (stringOf (currentEditId st)))
                     (writtenFields formData ++ [("updatedAt", serverTimestamp)])) with
    | Fulfilled _ =>
        st' = set_editing false VNull st
        /\ In (ev (ShowToast "Producto actualizado exitosamente" "success")) tr
    | Rejected e =>
        st' = st /\ In (ev (ShowToast ("Error: " +:+ message e) "error")) tr
    end
  else
    match store _ (addDoc (collection COLLECTION_NAME)
                     (writtenFields formData
                      ++ [("createdAt", serverTimestamp);
                          ("updatedAt", serverTimestamp)])) with
    | Fulfilled _ =>
        st' = set_editing false VNull st
        /\ In (ev (ShowToast "Producto creado exitosamente" "success")) tr
    | Rejected e =>
        st' = st /\ In (ev (ShowToast ("Error: " +:+ message e) "error")) tr
    end.
Proof.
  intros Hvalid Hid formData tr st'. subst tr st'.
  pose proof (run_handleFormSubmit_valid parseFloat (linked store browser) f st Hvalid)
    as H. cbv zeta in H. fold formData in H.
  pose proof (validateProductData_valid_accepted _ Hvalid) as Hacc.
  apply firstError_accepted in Hacc. fold formData in Hacc.
  destruct (isEditing st).
  - pose proof (updateProduct_cases (currentEditId st) formData) as Hupd.
    rewrite (Hid eq_refl), Hacc in Hupd. cbn [negb] in Hupd.
    cbn [linked] in H. rewrite (updates_run _ _ _ store Hupd) in H. cbn [snd] in H.
    destruct (store _ _) as [u|e]; destruct H as (H1 & H2 & _); split; assumption.
  - pose proof (createProduct_cases formData) as Hcre. rewrite Hacc in Hcre.
    cbn [linked] in H. rewrite (inserts_run _ _ store Hcre) in H. cbn [snd] in H.
    destruct (store _ _) as [u|e]; destruct H as (H1 & H2 & _); split; assumption.
Qed.

End Linked.

Lemma valid_submit_writes_to_the_store_witness :
  let f := {| nameInput := "Lamp"; descriptionInput := "A desk lamp";
              priceInput := "5"; categorySelect := "Home" |} in
  (run (linked accepting failing)
       (handleFormSubmit parseFloatSample f initialState)).2
  = set_editing false VNull initialState.
Proof.
  intros f.
  exact (proj1 (valid_submit_writes_to_the_store parseFloatSample accepting failing
                  f initialState eq_refl (fun H => False_ind _ (diff_false_true H)))).
Defined.

(** X27.  A confirmed deletion of a product of the mirror over the adapter:
    the controller asks, calls [deleteProduct] and shows one notice.  When the
    identifier is the empty string [deleteProduct] refuses it and the store
    is not asked: the notice is the error "El ID del producto es requerido";
    otherwise the document of that identifier in "productos" is deleted and
    the notice is the success notice or the error of the store. *)
Theorem confirmed_delete_over_the_adapter
    (store : forall R, sdk R -> R) (browser : forall R, table R -> R)
    (productId : string) (st : app_state) (product : product) :
  List.find (fun p => String.eqb (product_id p) productId) (allProducts st)
  = Some product ->
  browser _ (Confirm (confirmQuestion product)) = true ->
  (run (linkedTable store browser) (handleDeleteProduct productId st)).1
  = [ ev (Confirm (confirmQuestion product));
      ev (DeleteProduct (VString productId));
      ev (Controller
            (if String.eqb productId "" then
               ShowToast ("Error al eliminar: " +:+ msg_id_required) "error"
             else
               match store _ (deleteDoc (doc COLLECTION_NAME productId)) with
               | Fulfilled _ => ShowToast "Producto eliminado exitosamente" "success"
               | Rejected e =>
                   ShowToast ("Error al eliminar: " +:+ message e) "error"
               end)) ].
Proof.
  intros Hfind Hyes. unfold handleDeleteProduct. rewrite Hfind.
  fold (confirmQuestion product).
  unfold showToast, call, mbind, prog_bind. cbn [bind run lift linkedTable].
  rewrite Hyes. cbn [negb bind run lift linkedTable].
  pose proof (deleteProduct_cases (VString productId)) as Hdel.
  destruct productId as [|c rest].
  - change (isIdentifier (VString "")) with false in Hdel. rewrite Hdel.
    reflexivity.
  - change (isIdentifier (VString (String c rest))) with true in Hdel.
    rewrite (deletes_run _ _ store Hdel). cbn [snd stringOf String.eqb].
    destruct (store _ _) as [u|e]; reflexivity.
Qed.

Lemma confirmed_delete_over_the_adapter_witness :
  let st := set_allProducts [sampleProduct "p1" 10 "Home"] initialState in
  exists tr,
    (run (linkedTable accepting agreeing) (handleDeleteProduct "p1" st)).1 = tr
    /\ In (ev (Controller (ShowToast "Producto eliminado exitosamente" "success"))) tr.
Proof.
  intros st. eexists. split.
  - exact (confirmed_delete_over_the_adapter accepting agreeing "p1" st
             (sampleProduct "p1" 10 "Home") eq_refl eq_refl).
  - cbn. auto.
Defined.
